(** * MDAnalysisData: dataset fetch-and-cache, a shallow embedding

    The two dataset modules [adk_equilibrium.py] and [ifabp_water.py]
    contain the same [fetch_*] body, parameterised only by the module
    constants [NAME], [DESCRIPTION] and [ARCHIVE].  The body is embedded
    once as [fetch_dataset]; [fetch_adk_equilibrium] and [fetch_ifabp_water]
    instantiate it with the constants of each module.

    The helpers imported from [MDAnalysisData.base] ([get_data_home],
    [_fetch_remote], [RemoteFileMetadata], [Bunch]) are not part of the
    sources at hand; they are modelled from the spec (see the doc comments
    starting with "Modelled from the spec").

    Effects: Python exceptions do not roll back state, so the code runs in
    a state-and-exception monad [M] over a file-system state that also
    records a log of downloader invocations, network requests and reads of
    the description file. *)

From Stdlib Require Import String.
From stdpp Require Import base gmap sets list strings.

Module MDAnalysisData.

(* ------------------------------------------------------------------ *)
(** ** Paths *)

(** A path is the list of its components, innermost first:
    "/home/u/MDAnalysis_data" is ["MDAnalysis_data"; "u"; "home"], and []
    is the root "/".  [os.path.join(p, c)] with a relative component [c]
    (a dataset name or a file name) adds [c] as the last component. *)
Abbreviation path := (list string).

Definition join (p : path) (c : string) : path := c :: p.

(** The textual form of a path, as [str] shows it in messages. *)
Fixpoint render_path (p : path) : string :=
  match p with
  | [] => ""
  | c :: p' => (render_path p' ++ "/" ++ c)%string
  end.

(* ------------------------------------------------------------------ *)
(** ** Data model *)

(** [RemoteFileMetadata(filename, url, checksum)] (a namedtuple in base). *)
Record RemoteFileMetadata := {
  filename : string;
  url : string;
  checksum : string
}.

(** The constants of one dataset module. [ARCHIVE] is a Python dict; its
    iteration order is the insertion order, kept by the list. *)
Record dataset := {
  NAME : string;
  DESCRIPTION : string;
  ARCHIVE : list (string * RemoteFileMetadata)
}.

(** File contents as the code observes them: the only property of a file's
    bytes the fetch code (through [_fetch_remote]) looks at is its SHA-256
    hex digest, so a content is represented by that digest. *)
Abbreviation content := string.

Inductive event :=
| EvFetchRemote (meta : RemoteFileMetadata) (dirname : path)
    (** the downloader [_fetch_remote] is invoked *)
| EvNet (u : string)
    (** one network request for URL [u] *)
| EvReadDescr (fname : string)
    (** the description file [descr/fname] of the package is opened *)
.

Definition is_download (ev : event) : bool :=
  match ev with
  | EvFetchRemote _ _ | EvNet _ => true
  | EvReadDescr _ => false
  end.

(** Number of downloader invocations and network requests in a log. *)
Definition downloads (l : list event) : nat := length (filter is_download l).

Definition is_descr_read (ev : event) : bool :=
  match ev with EvReadDescr _ => true | _ => false end.

(** The local file system (directories and regular files) and the log;
    the newest event is at the head of the log. *)
Record fs_state := {
  dirs : gset path;
  files : gmap path content;
  log : list event
}.

(** The world outside the cache: the environment variable read by
    [get_data_home], its default, the remote host (URL to served content),
    the number of retries of the downloader and the package's [descr]
    directory (file name to its text). *)
Record env := {
  MDANALYSIS_DATA : option path;
  DEFAULT_DATADIR : path;
  remote : gmap string content;
  retries : nat;
  module_path : path;
  descr_files : gmap string string
}.

(** The exceptions that can reach the caller.  In Python 3 all of them are
    [OSError] (= [IOError]) or subclasses of it; the last three are the
    spec's IntegrityError, TransientFetchError and FilesystemError raised
    by the downloader. *)
Inductive exc :=
| IOError (msg : string)
| FileExistsError (p : path)
| NotADirectoryError (p : path)
| FileNotFoundError (p : path)
| IntegrityError (p : path) (expected actual : string)
| TransientFetchError (u : string)
| FilesystemError (p : path).

(** [str(e)] of an exception.  The messages of the OSErrors are Python's;
    those of the downloader's errors are modelled from the spec and carry
    everything the downloader knows: the path, the URL and the checksums. *)
Definition exc_message (e : exc) : string :=
  match e with
  | IOError msg => msg
  | FileExistsError p => ("[Errno 17] File exists: '" ++ render_path p ++ "'")%string
  | NotADirectoryError p => ("[Errno 20] Not a directory: '" ++ render_path p ++ "'")%string
  | FileNotFoundError p =>
      ("[Errno 2] No such file or directory: '" ++ render_path p ++ "'")%string
  | IntegrityError p expected actual =>
      (render_path p ++ " has an SHA256 checksum (" ++ actual ++
       ") differing from expected (" ++ expected ++ "), file may be corrupted.")%string
  | TransientFetchError u => ("failed to retrieve " ++ u)%string
  | FilesystemError p => ("cannot write to " ++ render_path p)%string
  end.

(* ------------------------------------------------------------------ *)
(** ** A state and exception monad *)

Definition M (A : Type) : Type := fs_state -> fs_state * (exc + A).

Definition ret {A} (a : A) : M A := fun s => (s, inr a).

Definition bind {A B} (m : M A) (k : A -> M B) : M B :=
  fun s => match m s with
           | (s', inl e) => (s', inl e)
           | (s', inr a) => k a s'
           end.

Definition raise {A} (e : exc) : M A := fun s => (s, inl e).

Definition get : M fs_state := fun s => (s, inr s).

Definition put (s' : fs_state) : M unit := fun _ => (s', inr tt).

Notation "x <- m ;; k" := (bind m (fun x => k))
  (at level 100, m at next level, right associativity).
Notation "m ;;; k" := (bind m (fun _ => k))
  (at level 100, right associativity).

Definition set_dirs (d : gset path) (s : fs_state) : fs_state :=
  {| dirs := d; files := files s; log := log s |}.
Definition set_files (f : gmap path content) (s : fs_state) : fs_state :=
  {| dirs := dirs s; files := f; log := log s |}.
Definition add_event (ev : event) (s : fs_state) : fs_state :=
  {| dirs := dirs s; files := files s; log := ev :: log s |}.

Definition log_event (ev : event) : M unit :=
  s <- get;; put (add_event ev s).

(* ------------------------------------------------------------------ *)
(** ** os and os.path *)

(** [os.path.exists]: an entry (directory or file) is at the path. *)
Definition path_exists (s : fs_state) (p : path) : bool :=
  match p with
  | [] => true
  | _ => bool_decide (p ∈ dirs s) || bool_decide (is_Some (files s !! p))
  end.

(** [os.path.isdir] *)
Definition is_dir (s : fs_state) (p : path) : bool :=
  match p with
  | [] => true
  | _ => bool_decide (p ∈ dirs s)
  end.

(** [os.mkdir(p)]; permission and read-only failures are not modelled. *)
Definition mkdir (p : path) : M unit :=
  match p with
  | [] => raise (FileExistsError [])
  | _ :: parent =>
      s <- get;;
      if path_exists s p then raise (FileExistsError p)
      else if is_dir s parent then put (set_dirs ({[p]} ∪ dirs s) s)
      else if path_exists s parent then raise (NotADirectoryError p)
      else raise (FileNotFoundError p)
  end.

(** [os.makedirs(p)]: create the missing parent directories first
    ([head, tail = split(p); if head and tail and not exists(head):
    makedirs(head)]), then [mkdir(p)]. *)
Fixpoint makedirs (p : path) : M unit :=
  match p with
  | [] => mkdir []
  | _ :: head =>
      s <- get;;
      (if path_exists s head then ret tt else makedirs head);;;
      mkdir p
  end.

(* ------------------------------------------------------------------ *)
(** ** The helpers of [MDAnalysisData.base] *)

(** Modelled from the spec: [get_data_home] of [base] (CacheLocator
    [resolve_root]).  An explicit [data_home] is used as it is; otherwise
    the process-wide setting, else the fixed default under the home
    directory. *)
Definition get_data_home (e : env) (data_home : option path) : path :=
  match data_home with
  | Some p => p
  | None =>
      match MDANALYSIS_DATA e with
      | Some p => p
      | None => DEFAULT_DATADIR e
      end
  end.

(** Modelled from the spec: the network side of [_fetch_remote] of [base].
    Each attempt is one request; the remote host either serves the content
    of the URL or the request fails, and a failed request is retried a
    bounded number of times. *)
Fixpoint net_get (e : env) (u : string) (attempts : nat) : M (option content) :=
  match attempts with
  | 0 => ret None
  | S n =>
      log_event (EvNet u);;;
      match remote e !! u with
      | Some c => ret (Some c)
      | None => net_get e u n
      end
  end.

(** The temporary file the downloader streams into, in the target
    directory. *)
Definition temp_path (dirname : path) (meta : RemoteFileMetadata) : path :=
  join dirname (filename meta ++ ".part")%string.

(** Modelled from the spec: [_fetch_remote(meta, dirname)] of [base]
    (Downloader [fetch(metadata, dest_dir)]).  If the final file exists with
    the expected checksum it is returned without network access.  Otherwise
    the remote content is streamed to a temporary file in [dirname]; on a
    checksum mismatch the temporary file is removed and an IntegrityError
    is raised, on success it is renamed to [dirname/filename].  Network
    failures end in a TransientFetchError after the retries, a target
    directory that is not a directory in a FilesystemError. *)
Definition _fetch_remote (e : env) (meta : RemoteFileMetadata) (dirname : path) : M path :=
  log_event (EvFetchRemote meta dirname);;;
  let final := join dirname (filename meta) in
  s <- get;;
  if bool_decide (files s !! final = Some (checksum meta)) then ret final
  else
    oc <- net_get e (url meta) (S (retries e));;
    match oc with
    | None => raise (TransientFetchError (url meta))
    | Some c =>
        s <- get;;
        if negb (is_dir s dirname) then raise (FilesystemError dirname)
        else
          let tmp := temp_path dirname meta in
          put (set_files (<[tmp := c]> (files s)) s);;;
          s <- get;;
          if bool_decide (c = checksum meta) then
            put (set_files (<[final := c]> (delete tmp (files s))) s);;;
            ret final
          else
            put (set_files (delete tmp (files s)) s);;;
            raise (IntegrityError final (checksum meta) c)
    end.

(** Modelled from the spec: [Bunch] of [base], a dict whose keys are also
    attributes.  Values are file paths or the description text; setting a
    key keeps its position if present and appends it otherwise. *)
Inductive bunch_value :=
| BPath (p : path)
| BText (t : string).

Abbreviation Bunch := (list (string * bunch_value)).

Definition bunch_set (k : string) (v : bunch_value) (b : Bunch) : Bunch :=
  if existsb (fun kv => bool_decide (kv.1 = k)) b
  then map (fun kv => if bool_decide (kv.1 = k) then (k, v) else kv) b
  else b ++ [(k, v)].

Definition bunch_get (k : string) (b : Bunch) : option bunch_value :=
  snd <$> find (fun kv => bool_decide (kv.1 = k)) b.

(* ------------------------------------------------------------------ *)
(** ** [fetch_adk_equilibrium] and [fetch_ifabp_water] *)

(** The message of the IOError raised when a file is missing and
    downloads are disabled (lines 105-106 / 112-113). *)
Definition missing_msg (file_type : string) (local_path : path) : string :=
  ("Data " ++ file_type ++ "=" ++ render_path local_path ++
   " not found and `download_if_missing` is False")%string.

(** [if not exists(data_location): makedirs(data_location)] *)
Definition ensure_dir (data_location : path) : M unit :=
  s <- get;;
  if path_exists s data_location then ret tt else makedirs data_location.

(** The body of the loop for one [(file_type, meta)] item, after
    [records[file_type] = local_path]: download the file if it is missing
    ([logger.info] has no effect on the state and is left out). *)
Definition resolve_file (e : env) (data_location : path) (download_if_missing : bool)
    (item : string * RemoteFileMetadata) : M unit :=
  let '(file_type, meta) := item in
  let local_path := join data_location (filename meta) in
  s <- get;;
  if path_exists s local_path then ret tt
  else if negb download_if_missing then
    raise (IOError (missing_msg file_type local_path))
  else
    _fetch_remote e meta data_location;;; ret tt.

(** [for file_type, meta in ARCHIVE.items(): ...] *)
Fixpoint fetch_files (e : env) (data_location : path) (download_if_missing : bool)
    (items : list (string * RemoteFileMetadata)) (records : Bunch) : M Bunch :=
  match items with
  | [] => ret records
  | (file_type, meta) :: rest =>
      let records := bunch_set file_type
                       (BPath (join data_location (filename meta))) records in
      resolve_file e data_location download_if_missing (file_type, meta);;;
      fetch_files e data_location download_if_missing rest records
  end.

(** [codecs.open(join(module_path, 'descr', DESCRIPTION)).read()]; only a
    missing file is modelled as a failure. *)
Definition read_descr (e : env) (DESCRIPTION : string) : M string :=
  log_event (EvReadDescr DESCRIPTION);;;
  match descr_files e !! DESCRIPTION with
  | Some text => ret text
  | None => raise (FileNotFoundError (join (join (module_path e) "descr") DESCRIPTION))
  end.

(** The common body of [fetch_adk_equilibrium] and [fetch_ifabp_water]. *)
Definition fetch_dataset (e : env) (ds : dataset) (data_home : option path)
    (download_if_missing : bool) : M Bunch :=
  let name := NAME ds in
  let data_location := join (get_data_home e data_home) name in
  ensure_dir data_location;;;
  records <- fetch_files e data_location download_if_missing (ARCHIVE ds) [];;
  descr <- read_descr e (DESCRIPTION ds);;
  ret (bunch_set "DESCR" (BText descr) records).

(** The constants of [adk_equilibrium.py]. *)
Definition adk_equilibrium : dataset := {|
  NAME := "adk_equilibrium";
  DESCRIPTION := "adk_equilibrium.rst";
  ARCHIVE := [
    ("topology", {| filename := "adk4AKE.psf";
                    url := "https://ndownloader.figshare.com/files/8672230";
                    checksum := "1aa947d58fb41b6805dc1e7be4dbe65c6a8f4690f0bd7fc2ae03e7bd437085f4" |});
    ("trajectory", {| filename := "1ake_007-nowater-core-dt240ps.dcd";
                      url := "https://ndownloader.figshare.com/files/8672074";
                      checksum := "598fcbcfcc425f6eafbe9997238320fcacc6a4613ecce061e1521732bab734bf" |})]
|}.

(** The constants of [ifabp_water.py]. *)
Definition ifabp_water : dataset := {|
  NAME := "ifabp_water";
  DESCRIPTION := "ifabp_water.rst";
  ARCHIVE := [
    ("topology", {| filename := "ifabp_water.psf";
                    url := "https://ndownloader.figshare.com/files/12980639";
                    checksum := "ba40714318aabec537015dc550fe5bd5ac1ac0b853f5abdd2f0ae63af9cfcafa" |});
    ("structure", {| filename := "ifabp_water_0.pdb";
                     url := "https://ndownloader.figshare.com/files/12980636";
                     checksum := "8ccf5f75fd85385921c0cb77f00281a93b933fc1261c42fc9492f43983448a72" |});
    ("trajectory", {| filename := "rmsfit_ifabp_water_1.dcd";
                      url := "https://ndownloader.figshare.com/files/12980642";
                      checksum := "cebb48e58015abc8ff2f5bb7ba3eb7a289047f256351a8252bf1f29f9aaacf0e" |})]
|}.

Definition fetch_adk_equilibrium (e : env) (data_home : option path)
    (download_if_missing : bool) : M Bunch :=
  fetch_dataset e adk_equilibrium data_home download_if_missing.

Definition fetch_ifabp_water (e : env) (data_home : option path)
    (download_if_missing : bool) : M Bunch :=
  fetch_dataset e ifabp_water data_home download_if_missing.

(** The dataset modules of the package. *)
Definition datasets : list dataset := [adk_equilibrium; ifabp_water].

(* ------------------------------------------------------------------ *)
(** ** Notions used in the statements *)

(** The records the loop builds: [records[file_type] = local_path] for
    every item, in order. *)
Fixpoint archive_records (dl : path) (items : list (string * RemoteFileMetadata))
    (records : Bunch) : Bunch :=
  match items with
  | [] => records
  | (ft, meta) :: rest =>
      archive_records dl rest (bunch_set ft (BPath (join dl (filename meta))) records)
  end.

(** The first item, in iteration order, whose file is not present. *)
Definition first_missing (s : fs_state) (dl : path)
    (items : list (string * RemoteFileMetadata)) : option (string * RemoteFileMetadata) :=
  find (fun it => negb (path_exists s (join dl (filename it.2)))) items.

(** No file name of an archive is the temporary name of another one. *)
Definition archive_wf (items : list (string * RemoteFileMetadata)) : Prop :=
  Forall (fun it1 => Forall (fun it2 =>
    filename it1.2 <> (filename it2.2 ++ ".part")%string) items) items.

(** The final cache path of an item. *)
Definition local_path (e : env) (ds : dataset) (data_home : option path)
    (meta : RemoteFileMetadata) : path :=
  join (join (get_data_home e data_home) (NAME ds)) (filename meta).

(** [needle in hay] for strings. *)
Fixpoint contains (needle hay : string) : bool :=
  String.prefix needle hay ||
  match hay with
  | EmptyString => false
  | String _ hay' => contains needle hay'
  end.

(** The bundle of a successful call (the empty bundle otherwise). *)
Definition result_bundle (r : exc + Bunch) : Bunch :=
  match r with inr b => b | inl _ => [] end.

(** The targets of the downloader invocations of a log, oldest first. *)
Fixpoint fetch_targets (l : list event) : list (RemoteFileMetadata * path) :=
  match l with
  | [] => []
  | EvFetchRemote m d :: l' => fetch_targets l' ++ [(m, d)]
  | _ :: l' => fetch_targets l'
  end.

(* ------------------------------------------------------------------ *)
(** ** Concrete worlds used by the examples *)

Definition adk_meta (i : nat) : RemoteFileMetadata :=
  default {| filename := ""; url := ""; checksum := "" |}
          (snd <$> ARCHIVE adk_equilibrium !! i).

(** A world where the remote host serves every adk file with the right
    content and the package ships its description. *)
Definition env0 : env := {|
  MDANALYSIS_DATA := None;
  DEFAULT_DATADIR := ["MDAnalysis_data"; "u"; "home"];
  remote := <[url (adk_meta 0) := checksum (adk_meta 0)]>
              (<[url (adk_meta 1) := checksum (adk_meta 1)]> ∅);
  retries := 2;
  module_path := ["MDAnalysisData"; "site-packages"];
  descr_files := <["adk_equilibrium.rst" := "AdK equilibrium trajectory"]> ∅
|}.

Definition ifabp_meta (i : nat) : RemoteFileMetadata :=
  default {| filename := ""; url := ""; checksum := "" |}
          (snd <$> ARCHIVE ifabp_water !! i).

(** A world where the remote host serves every ifabp file with the right
    content and the package ships its description. *)
Definition env1 : env := {|
  MDANALYSIS_DATA := None;
  DEFAULT_DATADIR := ["MDAnalysis_data"; "u"; "home"];
  remote := <[url (ifabp_meta 0) := checksum (ifabp_meta 0)]>
              (<[url (ifabp_meta 1) := checksum (ifabp_meta 1)]>
                (<[url (ifabp_meta 2) := checksum (ifabp_meta 2)]> ∅));
  retries := 0;
  module_path := ["MDAnalysisData"; "site-packages"];
  descr_files := <["ifabp_water.rst" := "I-FABP with water"]> ∅
|}.

(** The same world where the host serves corrupted topology bytes. *)
Definition env_bad : env := {|
  MDANALYSIS_DATA := None;
  DEFAULT_DATADIR := ["MDAnalysis_data"; "u"; "home"];
  remote := <[url (adk_meta 0) := "0bad"]>
              (<[url (adk_meta 1) := checksum (adk_meta 1)]> ∅);
  retries := 2;
  module_path := ["MDAnalysisData"; "site-packages"];
  descr_files := <["adk_equilibrium.rst" := "AdK equilibrium trajectory"]> ∅
|}.

(** A world where the topology of adk is served correctly but the
    trajectory URL serves corrupted bytes. *)
Definition env_bad_traj : env := {|
  MDANALYSIS_DATA := None;
  DEFAULT_DATADIR := ["MDAnalysis_data"; "u"; "home"];
  remote := <[url (adk_meta 0) := checksum (adk_meta 0)]>
              (<[url (adk_meta 1) := "0bad"]> ∅);
  retries := 2;
  module_path := ["MDAnalysisData"; "site-packages"];
  descr_files := <["adk_equilibrium.rst" := "AdK equilibrium trajectory"]> ∅
|}.

(** A machine with only /home/u. *)
Definition fs0 : fs_state := {|
  dirs := {[ ["home"]; ["u"; "home"] ]};
  files := ∅;
  log := []
|}.

(** A cache where the adk dataset directory holds a topology file whose
    content does not have the expected checksum, and a good trajectory. *)
Definition fs_corrupt : fs_state := {|
  dirs := {[ ["home"]; ["u"; "home"]; ["MDAnalysis_data"; "u"; "home"];
             ["adk_equilibrium"; "MDAnalysis_data"; "u"; "home"] ]};
  files := <[["adk4AKE.psf"; "adk_equilibrium"; "MDAnalysis_data"; "u"; "home"] := "0bad"]>
             (<[["1ake_007-nowater-core-dt240ps.dcd"; "adk_equilibrium";
                 "MDAnalysis_data"; "u"; "home"] := checksum (adk_meta 1)]> ∅);
  log := []
|}.

(** A machine where /home/data is a regular file. *)
Definition fs_blocked : fs_state := {|
  dirs := {[ ["home"] ]};
  files := <[["data"; "home"] := "0123"]> ∅;
  log := []
|}.

(* ------------------------------------------------------------------ *)
(** * Properties *)

Arguments path_exists : simpl never.
Arguments is_dir : simpl never.
Arguments mkdir : simpl never.

Ltac unfold_monad :=
  unfold bind, ret, raise, get, put, log_event in *; simpl in *.

(** Split on the [match] a monadic step leaves in a hypothesis. *)
Ltac split_match :=
  match goal with
  | H : context [match ?x with _ => _ end] |- _ =>
      let E := fresh "E" in destruct x eqn:E
  end.

(** ** [os.mkdir] and [os.makedirs] *)

Lemma is_dir_exists s p : is_dir s p = true -> path_exists s p = true.
Proof.
  unfold is_dir, path_exists. destruct p; [done|]. intros H. rewrite H. done.
Qed.

Lemma mkdir_frame p s s' r :
  mkdir p s = (s', r) ->
  files s' = files s /\ log s' = log s /\ dirs s ⊆ dirs s' /\
  (forall d, d ∈ dirs s' -> d ∉ dirs s -> d = p).
Proof.
  destruct p as [|c parent]; unfold mkdir; unfold_monad.
  - intros [= <- _]. split_and!; set_solver.
  - destruct (path_exists s (c :: parent)); [intros [= <- _]; split_and!; set_solver|].
    destruct (is_dir s parent).
    + intros [= <- _]. simpl. split_and!; [done|done|set_solver|set_solver].
    + destruct (path_exists s parent); intros [= <- _]; split_and!; set_solver.
Qed.

Lemma mkdir_ok p s s' :
  mkdir p s = (s', inr ()) -> p ∈ dirs s'.
Proof.
  destruct p as [|c parent]; unfold mkdir; unfold_monad; [done|].
  destruct (path_exists s (c :: parent)); [done|].
  destruct (is_dir s parent); [intros [= <-]; simpl; set_solver|].
  destruct (path_exists s parent); done.
Qed.

(** [makedirs p] touches only the directory set, and every directory it
    creates is [p] or one of its ancestors. *)
Lemma makedirs_frame p :
  forall s s' r, makedirs p s = (s', r) ->
  files s' = files s /\ log s' = log s /\ dirs s ⊆ dirs s' /\
  (forall d, d ∈ dirs s' -> d ∉ dirs s -> exists k, p = k ++ d).
Proof.
  induction p as [|c head IH]; intros s s' r H.
  - simpl in H. apply mkdir_frame in H as (? & ? & ? & Hn).
    split_and!; try done. intros d ??. exists []. by rewrite (Hn d).
  - simpl in H. unfold_monad.
    destruct (path_exists s head).
    + apply mkdir_frame in H as (? & ? & ? & Hn).
      split_and!; try done. intros d ??. exists []. by rewrite (Hn d).
    + destruct (makedirs head s) as [s1 [e1|u1]] eqn:E1.
      * injection H as <- _. destruct (IH _ _ _ E1) as (? & ? & ? & Hn).
        split_and!; try done. intros d Hd Hd'.
        destruct (Hn d Hd Hd') as [k ->]. by exists (c :: k).
      * destruct (IH _ _ _ E1) as (Hf1 & Hl1 & Hs1 & Hn1).
        apply mkdir_frame in H as (Hf2 & Hl2 & Hs2 & Hn2).
        split_and!; [congruence|congruence|set_solver|].
        intros d Hd Hd'.
        destruct (decide (d ∈ dirs s1)) as [Hin|Hnin].
        -- destruct (Hn1 d Hin Hd') as [k ->]. by exists (c :: k).
        -- exists []. by rewrite (Hn2 d Hd Hnin).
Qed.

Lemma makedirs_ok p s s' :
  makedirs p s = (s', inr ()) -> p ∈ dirs s'.
Proof.
  destruct p as [|c head]; simpl; unfold_monad.
  - done.
  - destruct (path_exists s head).
    + apply mkdir_ok.
    + destruct (makedirs head s) as [s1 [e1|[]]]; [done|]. apply mkdir_ok.
Qed.

(** Against a fresh [data_home] whose parent is a directory, [makedirs]
    creates exactly [data_home] and [data_home/name]. *)
Lemma makedirs_fresh (c name : string) (par : path) s :
  is_dir s par = true ->
  path_exists s (c :: par) = false ->
  path_exists s (name :: c :: par) = false ->
  makedirs (name :: c :: par) s =
    (set_dirs ({[name :: c :: par]} ∪ ({[c :: par]} ∪ dirs s))
              (set_dirs ({[c :: par]} ∪ dirs s) s), inr ()).
Proof.
  intros Hpar Hdh Hdl. simpl. unfold_monad.
  rewrite Hdh, (is_dir_exists _ _ Hpar). unfold mkdir. unfold_monad.
  rewrite Hdh, Hpar.
  assert (Hdl' : path_exists (set_dirs ({[c :: par]} ∪ dirs s) s) (name :: c :: par) = false).
  { unfold path_exists in *. simpl in *. apply orb_false_iff in Hdl as [H1 H2].
    apply orb_false_iff; split; [|done].
    apply bool_decide_eq_false in H1. apply bool_decide_eq_false.
    intros [Hx|Hx]%elem_of_union; [|done].
    apply elem_of_singleton in Hx. by apply (f_equal length) in Hx; simpl in Hx; lia. }
  rewrite Hdl'. unfold is_dir. rewrite bool_decide_eq_true_2 by set_solver. done.
Qed.

(** ** The downloader *)

Lemma append_part_neq (f : string) : (f ++ ".part")%string <> f.
Proof.
  induction f as [|a f IH]; [discriminate|]. simpl. intros [= H]. by apply IH.
Qed.

Lemma temp_path_neq d m : temp_path d m <> join d (filename m).
Proof. unfold temp_path, join. intros [= H]. by apply (append_part_neq (filename m)). Qed.

Lemma net_get_S e u n :
  net_get e u (S n) =
    (log_event (EvNet u);;;
     match remote e !! u with
     | Some c => ret (Some c)
     | None => net_get e u n
     end).
Proof. reflexivity. Qed.

Arguments net_get : simpl never.

Lemma net_get_spec e u n :
  forall s s' r, net_get e u n s = (s', r) ->
  dirs s' = dirs s /\ files s' = files s /\
  (exists evs, log s' = evs ++ log s /\ Forall (fun ev => ev = EvNet u) evs) /\
  (exists oc, r = inr oc).
Proof.
  induction n as [|n IH]; intros s s' r H; [|rewrite net_get_S in H];
    unfold net_get in H; unfold_monad.
  - injection H as <- <-. split_and!; [done|done| |by eexists].
    exists []. done.
  - destruct (remote e !! u) as [c|].
    + injection H as <- <-. split_and!; [done|done| |by eexists].
      exists [EvNet u]. simpl. split; [done|]. by constructor.
    + apply IH in H as (Hd & Hf & [evs [Hl Hevs]] & Hr). simpl in *.
      split_and!; [done|done| |done].
      exists (evs ++ [EvNet u]). rewrite Hl, <- app_assoc. split; [done|].
      apply Forall_app. split; [done|]. by constructor.
Qed.

(** What one call of the downloader can do: it changes no directory, writes
    only its temporary file and its final file, logs its own invocation
    and network requests, and on success returns the final path, holding
    content with the expected checksum. *)
Lemma fetch_remote_spec e m d s s' r :
  _fetch_remote e m d s = (s', r) ->
  dirs s' = dirs s /\
  (forall q, q <> temp_path d m -> q <> join d (filename m) ->
     files s' !! q = files s !! q) /\
  (forall q, q <> temp_path d m ->
     is_Some (files s !! q) -> is_Some (files s' !! q)) /\
  (exists evs, log s' = evs ++ EvFetchRemote m d :: log s /\
     Forall (fun ev => is_download ev = true) evs) /\
  (forall p, r = inr p ->
     p = join d (filename m) /\ files s' !! p = Some (checksum m)).
Proof.
  pose proof (temp_path_neq d m) as Htf.
  unfold _fetch_remote. unfold_monad.
  case_bool_decide as Hfast; simpl.
  { intros [= <- <-]. split_and!; try done.
    - exists []. done.
    - by intros p [= <-]. }
  destruct (net_get e (url m) (S (retries e)) (add_event (EvFetchRemote m d) s)) as [s2 [err|oc]] eqn:En;
    apply net_get_spec in En as (Hd2 & Hf2 & [evs [Hl2 Hevs]] & _);
    simpl in Hd2, Hf2, Hl2; simpl.
  - intros [= <- <-]. split_and!; try (intros; rewrite ?Hd2, ?Hf2; done).
    exists evs. split; [done|]. eapply Forall_impl; [done|]. by intros ? ->.
  - assert (Hevs' : Forall (fun ev => is_download ev = true) evs).
    { eapply Forall_impl; [done|]. by intros ? ->. }
    destruct oc as [c|]; simpl.
    2:{ intros [= <- <-]. split_and!; try (intros; rewrite ?Hd2, ?Hf2; done). by exists evs. }
    destruct (is_dir s2 d); simpl.
    2:{ intros [= <- <-]. split_and!; try (intros; rewrite ?Hd2, ?Hf2; done). by exists evs. }
    case_bool_decide as Hc; simpl.
    + intros [= <- <-]. simpl. split_and!.
      * done.
      * intros q Hq1 Hq2. rewrite lookup_insert_ne by done.
        rewrite lookup_delete_ne by done. rewrite lookup_insert_ne by done.
        by rewrite Hf2.
      * intros q Hq1 Hq2. destruct (decide (q = join d (filename m))) as [->|Hq].
        -- rewrite lookup_insert_eq. by eexists.
        -- rewrite lookup_insert_ne by done. rewrite lookup_delete_ne by done.
           rewrite lookup_insert_ne by done. by rewrite Hf2.
      * by exists evs.
      * intros p [= <-]. split; [done|]. subst c. apply lookup_insert_eq.
    + intros [= <- <-]. simpl. split_and!.
      * done.
      * intros q Hq1 Hq2. rewrite lookup_delete_ne by done.
        rewrite lookup_insert_ne by done. by rewrite Hf2.
      * intros q Hq1 Hq2. rewrite lookup_delete_ne by done.
        rewrite lookup_insert_ne by done. by rewrite Hf2.
      * by exists evs.
      * done.
Qed.

(** The events of one downloader call are its own invocation followed by
    its network requests for [url meta]; when it fails it has not written
    the final path, and the exception is one of the three it raises. *)
Lemma fetch_remote_log_err e m d s s' r :
  _fetch_remote e m d s = (s', r) ->
  (exists evs, log s' = evs ++ EvFetchRemote m d :: log s /\
     Forall (fun ev => ev = EvNet (url m)) evs) /\
  (forall err, r = inl err ->
     files s' !! join d (filename m) = files s !! join d (filename m) /\
     (err = TransientFetchError (url m) \/ err = FilesystemError d \/
      exists c, err = IntegrityError (join d (filename m)) (checksum m) c /\
                c <> checksum m)).
Proof.
  pose proof (temp_path_neq d m) as Htf.
  unfold _fetch_remote. unfold_monad.
  case_bool_decide as Hfast; simpl.
  { intros [= <- <-]. split; [by exists []|done]. }
  destruct (net_get e (url m) (S (retries e)) (add_event (EvFetchRemote m d) s)) as [s2 [err|oc]] eqn:En;
    apply net_get_spec in En as (Hd2 & Hf2 & [evs [Hl2 Hevs]] & Hoc);
    simpl in Hd2, Hf2, Hl2; simpl.
  - by destruct Hoc as [? [=]].
  - destruct oc as [c|]; simpl.
    2:{ intros [= <- <-]. split; [by exists evs|]. intros err [= <-].
        split; [by rewrite Hf2|by left]. }
    destruct (is_dir s2 d); simpl.
    2:{ intros [= <- <-]. split; [by exists evs|]. intros err [= <-].
        split; [by rewrite Hf2|by right; left]. }
    case_bool_decide as Hc; simpl.
    + intros [= <- <-]. simpl. split; [by exists evs|done].
    + intros [= <- <-]. simpl. split; [by exists evs|]. intros err [= <-]. split.
      * rewrite lookup_delete_ne by done. rewrite lookup_insert_ne by done.
        by rewrite Hf2.
      * right; right. by exists c.
Qed.

Arguments _fetch_remote : simpl never.
Arguments makedirs : simpl never.

(** ** Existence of paths *)

Lemma exists_of_dir s p : p ∈ dirs s -> path_exists s p = true.
Proof.
  unfold path_exists. destruct p; [done|]. intros H.
  by rewrite bool_decide_eq_true_2.
Qed.

Lemma exists_of_file s p : is_Some (files s !! p) -> path_exists s p = true.
Proof.
  unfold path_exists. destruct p; [done|]. intros H.
  rewrite (bool_decide_eq_true_2 (is_Some _)) by done. apply orb_true_r.
Qed.

Lemma exists_mono s s' q :
  dirs s ⊆ dirs s' ->
  (is_Some (files s !! q) -> is_Some (files s' !! q)) ->
  path_exists s q = true -> path_exists s' q = true.
Proof.
  unfold path_exists. destruct q as [|c q]; [done|]. intros Hd Hf.
  intros [H|H]%orb_true_iff.
  - apply bool_decide_eq_true_1 in H. by rewrite bool_decide_eq_true_2 by set_solver.
  - apply bool_decide_eq_true_1 in H.
    rewrite (bool_decide_eq_true_2 (is_Some _)) by auto. apply orb_true_r.
Qed.

(** ** [if not exists(data_location): makedirs(data_location)] *)

Lemma ensure_dir_spec dl s s' r :
  ensure_dir dl s = (s', r) ->
  files s' = files s /\ log s' = log s /\ dirs s ⊆ dirs s' /\
  (forall d, d ∈ dirs s' -> d ∉ dirs s -> exists k, dl = k ++ d) /\
  (r = inr () -> path_exists s' dl = true) /\
  (path_exists s dl = true -> s' = s /\ r = inr ()).
Proof.
  unfold ensure_dir. unfold_monad. destruct (path_exists s dl) eqn:Ex.
  - intros [= <- <-]. split_and!; try done; set_solver.
  - intros H. pose proof (makedirs_frame _ _ _ _ H) as (Hf & Hl & Hs & Hn).
    split_and!; try done.
    intros ->. by apply exists_of_dir, (makedirs_ok _ s).
Qed.

(** ** Reading the description *)

Lemma read_descr_spec e d s s' r :
  read_descr e d s = (s', r) ->
  s' = add_event (EvReadDescr d) s /\
  r = match descr_files e !! d with
      | Some t => inr t
      | None => inl (FileNotFoundError (join (join (module_path e) "descr") d))
      end.
Proof.
  unfold read_descr. unfold_monad.
  destruct (descr_files e !! d); simpl; by intros [= <- <-].
Qed.

(** ** One item of the loop *)

Lemma resolve_file_spec e dl dim ft m s s' r :
  resolve_file e dl dim (ft, m) s = (s', r) ->
  dirs s' = dirs s /\
  (forall q, q <> temp_path dl m -> q <> join dl (filename m) ->
     files s' !! q = files s !! q) /\
  (forall q, q <> temp_path dl m ->
     is_Some (files s !! q) -> is_Some (files s' !! q)) /\
  (exists evs, log s' = evs ++ log s /\
     Forall (fun ev => is_download ev = true) evs) /\
  (path_exists s (join dl (filename m)) = true -> s' = s /\ r = inr ()) /\
  (r = inr () -> path_exists s' (join dl (filename m)) = true) /\
  (dim = false -> s' = s /\
     (path_exists s (join dl (filename m)) = false ->
      r = inl (IOError (missing_msg ft (join dl (filename m)))))) /\
  (forall err, r = inl err ->
     err = IOError (missing_msg ft (join dl (filename m))) \/
     _fetch_remote e m dl s = (s', inl err)).
Proof.
  unfold resolve_file. unfold_monad.
  destruct (path_exists s (join dl (filename m))) eqn:Ex; simpl.
  { intros [= <- <-]. split_and!; try done. by exists []. }
  destruct dim; simpl.
  2:{ intros [= <- <-]. split_and!; try done. by exists []. by intros ? [= ->]; left. }
  destruct (_fetch_remote e m dl s) as [s1 r1] eqn:Ef.
  pose proof (fetch_remote_spec _ _ _ _ _ _ Ef) as (Hd & Hf & Hs & [evs [Hl Hevs]] & Hok).
  destruct r1 as [err|p]; simpl; intros [= <- <-].
  - split_and!; try done.
    + exists (evs ++ [EvFetchRemote m dl]). rewrite Hl, <- app_assoc.
      split; [done|]. apply Forall_app. by split; [|constructor].
    + intros ? [= <-]. by right.
  - split_and!; try done.
    + exists (evs ++ [EvFetchRemote m dl]). rewrite Hl, <- app_assoc.
      split; [done|]. apply Forall_app. by split; [|constructor].
    + intros _. destruct (Hok p eq_refl) as [-> Hp].
      apply exists_of_file. by rewrite Hp.
Qed.

(** ** The loop over [ARCHIVE.items()] *)

Lemma fetch_files_cons e dl dim ft m rest recs :
  fetch_files e dl dim ((ft, m) :: rest) recs =
    (resolve_file e dl dim (ft, m);;;
     fetch_files e dl dim rest (bunch_set ft (BPath (join dl (filename m))) recs)).
Proof. reflexivity. Qed.

Arguments fetch_files : simpl never.
Arguments resolve_file : simpl never.

Lemma fetch_files_spec e dl dim items :
  forall recs s s' r, fetch_files e dl dim items recs s = (s', r) ->
  dirs s' = dirs s /\
  (forall q, Forall (fun it => q <> temp_path dl it.2) items ->
     is_Some (files s !! q) -> is_Some (files s' !! q)) /\
  (forall q c, Forall (fun it => q <> temp_path dl it.2) items ->
     files s !! q = Some c -> files s' !! q = Some c) /\
  (exists evs, log s' = evs ++ log s /\
     Forall (fun ev => is_download ev = true) evs) /\
  (forall recs', r = inr recs' -> recs' = archive_records dl items recs).
Proof.
  induction items as [|[ft m] rest IH]; intros recs s s' r H.
  - unfold fetch_files in H. unfold_monad. injection H as <- <-.
    split_and!; try done. by exists []. by intros ? [= ->].
  - rewrite fetch_files_cons in H. unfold_monad.
    destruct (resolve_file e dl dim (ft, m) s) as [s1 r1] eqn:E1.
    pose proof (resolve_file_spec _ _ _ _ _ _ _ _ E1)
      as (Hd1 & Hf1 & Hs1 & [evs1 [Hl1 Hev1]] & Hpres & _ & _ & _).
    destruct r1 as [err|[]]; simpl in H.
    + injection H as <- <-. split_and!; try done.
      * intros q Hq. apply Forall_cons in Hq as [Hq _]. simpl in Hq. by apply Hs1.
      * intros q c Hq Hc. apply Forall_cons in Hq as [Hq _]. simpl in Hq.
        destruct (decide (q = join dl (filename m))) as [->|Hne].
        -- destruct (Hpres (exists_of_file _ _ ltac:(by rewrite Hc))) as [-> _]. done.
        -- by rewrite Hf1.
      * by exists evs1.
    + destruct (IH _ _ _ _ H) as (Hd2 & Hs2 & Hf2 & [evs2 [Hl2 Hev2]] & Hr2).
      split_and!.
      * congruence.
      * intros q Hq Hsome. apply Forall_cons in Hq as [Hq Hq']. simpl in Hq.
        by apply Hs2, Hs1.
      * intros q c Hq Hc. apply Forall_cons in Hq as [Hq Hq']. simpl in Hq.
        apply Hf2; [done|].
        destruct (decide (q = join dl (filename m))) as [->|Hne].
        -- destruct (Hpres (exists_of_file _ _ ltac:(by rewrite Hc))) as [-> _]. done.
        -- by rewrite Hf1.
      * exists (evs2 ++ evs1). rewrite Hl2, Hl1, app_assoc.
        split; [done|]. by apply Forall_app.
      * intros recs' ->. by rewrite (Hr2 recs' eq_refl).
Qed.

Lemma join_temp_neq dl m1 m2 :
  filename m1 <> (filename m2 ++ ".part")%string ->
  join dl (filename m1) <> temp_path dl m2.
Proof. unfold temp_path, join. intros H [= H']. done. Qed.

(** After a successful loop every file of the archive is present. *)
Lemma fetch_files_exist e dl dim items :
  archive_wf items ->
  forall recs s s' recs', fetch_files e dl dim items recs s = (s', inr recs') ->
  Forall (fun it => path_exists s' (join dl (filename it.2)) = true) items.
Proof.
  induction items as [|[ft m] rest IH]; intros Hwf recs s s' recs' H; [done|].
  assert (Hwf' : archive_wf rest).
  { unfold archive_wf in *. apply Forall_cons in Hwf as [_ Hwf].
    eapply Forall_impl; [exact Hwf|]. intros it Hit. by apply Forall_cons in Hit as [_ ?]. }
  assert (Hnot : Forall (fun it => join dl (filename m) <> temp_path dl it.2) rest).
  { unfold archive_wf in Hwf. apply Forall_cons in Hwf as [Hm _]. simpl in Hm.
    apply Forall_cons in Hm as [_ Hm].
    eapply Forall_impl; [exact Hm|]. intros it Hit. by apply join_temp_neq. }
  rewrite fetch_files_cons in H. unfold_monad.
  destruct (resolve_file e dl dim (ft, m) s) as [s1 r1] eqn:E1.
  pose proof (resolve_file_spec _ _ _ _ _ _ _ _ E1)
    as (_ & _ & _ & _ & _ & Hok1 & _ & _).
  destruct r1 as [err|[]]; simpl in H; [done|].
  pose proof (fetch_files_spec _ _ _ _ _ _ _ _ H) as (Hd2 & Hs2 & _ & _ & _).
  constructor.
  - simpl. apply (exists_mono s1); [by rewrite Hd2| |by apply Hok1].
    by apply Hs2.
  - by eapply IH.
Qed.

(** When every file is present the loop changes nothing. *)
Lemma fetch_files_present e dl dim items :
  forall recs s, first_missing s dl items = None ->
  fetch_files e dl dim items recs s = (s, inr (archive_records dl items recs)).
Proof.
  induction items as [|[ft m] rest IH]; intros recs s Hnone.
  - reflexivity.
  - unfold first_missing in Hnone. simpl in Hnone.
    destruct (path_exists s (join dl (filename m))) eqn:Ex; simpl in Hnone; [|done].
    rewrite fetch_files_cons. unfold_monad.
    destruct (resolve_file e dl dim (ft, m) s) as [s1 r1] eqn:E1.
    pose proof (resolve_file_spec _ _ _ _ _ _ _ _ E1)
      as (_ & _ & _ & _ & Hpres & _ & _ & _).
    destruct (Hpres Ex) as [-> ->]. by apply IH.
Qed.

(** With [download_if_missing=False] the loop changes nothing and raises
    the IOError of the first missing file, if any. *)
Lemma fetch_files_no_download e dl items :
  forall recs s s' r, fetch_files e dl false items recs s = (s', r) ->
  s' = s /\
  r = match first_missing s dl items with
      | None => inr (archive_records dl items recs)
      | Some (ft, m) => inl (IOError (missing_msg ft (join dl (filename m))))
      end.
Proof.
  induction items as [|[ft m] rest IH]; intros recs s s' r H.
  - unfold fetch_files in H. unfold_monad. by injection H as <- <-.
  - rewrite fetch_files_cons in H. unfold_monad.
    unfold first_missing. simpl.
    destruct (resolve_file e dl false (ft, m) s) as [s1 r1] eqn:E1.
    pose proof (resolve_file_spec _ _ _ _ _ _ _ _ E1)
      as (_ & _ & _ & _ & Hpres & _ & Hno & _).
    destruct (Hno eq_refl) as [-> Hmiss].
    destruct (path_exists s (join dl (filename m))) eqn:Ex; simpl.
    + destruct (Hpres eq_refl) as [_ ->]. simpl in H. by apply IH.
    + rewrite (Hmiss eq_refl) in H. simpl in H. by injection H as <- <-.
Qed.

(** The loop fails exactly when some item fails after the ones before it
    succeeded, with that item's exception and state. *)
Lemma fetch_files_error_iff e dl dim items :
  forall recs s s' err,
  fetch_files e dl dim items recs s = (s', inl err) <->
  exists pre it post s1 recs1,
    items = pre ++ it :: post /\
    fetch_files e dl dim pre recs s = (s1, inr recs1) /\
    resolve_file e dl dim it s1 = (s', inl err).
Proof.
  induction items as [|[ft m] rest IH]; intros recs s s' err; split.
  - unfold fetch_files. unfold_monad. done.
  - intros (pre & it & post & ? & ? & Heq & _). by destruct pre.
  - rewrite fetch_files_cons. unfold_monad.
    destruct (resolve_file e dl dim (ft, m) s) as [s1 r1] eqn:E1.
    destruct r1 as [err1|[]]; simpl.
    + intros [= <- <-]. exists [], (ft, m), rest, s, recs. done.
    + intros H. apply IH in H as (pre & it & post & s2 & recs2 & -> & Hpre & Hit).
      exists ((ft, m) :: pre), it, post, s2, recs2. split_and!; try done.
      rewrite fetch_files_cons. unfold_monad. by rewrite E1.
  - intros (pre & it & post & s1 & recs1 & Heq & Hpre & Hit).
    destruct pre as [|x pre].
    + simpl in Heq. injection Heq as <- <-.
      unfold fetch_files in Hpre. unfold_monad. injection Hpre as <- <-.
      rewrite fetch_files_cons. unfold_monad. by rewrite Hit.
    + simpl in Heq. injection Heq as <- Hrest.
      rewrite fetch_files_cons in Hpre. rewrite fetch_files_cons. unfold_monad.
      destruct (resolve_file e dl dim (ft, m) s) as [s2 r2] eqn:E2.
      destruct r2 as [err2|[]]; simpl in *; [done|].
      apply IH. exists pre, it, post, s1, recs1. by subst rest.
Qed.

(** ** The two dataset modules *)

Lemma datasets_wf ds : In ds datasets -> archive_wf (ARCHIVE ds).
Proof.
  intros [<-|[<-|[]]]; unfold archive_wf; simpl;
    repeat constructor; simpl; discriminate.
Qed.

Lemma path_exists_add_event ev s p :
  path_exists (add_event ev s) p = path_exists s p.
Proof. reflexivity. Qed.

Lemma first_missing_none s dl items :
  Forall (fun it => path_exists s (join dl (filename it.2)) = true) items ->
  first_missing s dl items = None.
Proof.
  unfold first_missing. induction 1 as [|it rest Hit _ IH]; [done|].
  simpl. by rewrite Hit.
Qed.

Lemma first_missing_some s dl items ft m :
  first_missing s dl items = Some (ft, m) ->
  In (ft, m) items /\ path_exists s (join dl (filename m)) = false.
Proof.
  unfold first_missing. intros H. apply find_some in H as [Hin Hp].
  split; [done|]. by apply negb_true_iff in Hp.
Qed.

(** [ensure_dir dl] creates no entry below [dl]. *)
Lemma ensure_dir_child dl s s' r c :
  ensure_dir dl s = (s', r) ->
  path_exists s' (c :: dl) = path_exists s (c :: dl).
Proof.
  intros H. apply ensure_dir_spec in H as (Hf & _ & Hs & Hn & _).
  unfold path_exists. rewrite Hf. f_equal.
  apply bool_decide_ext. split; [|set_solver].
  intros Hin. destruct (decide ((c :: dl) ∈ dirs s)) as [|Hnot]; [done|].
  destruct (Hn _ Hin Hnot) as [k Hk].
  apply (f_equal length) in Hk. rewrite length_app in Hk. simpl in Hk. lia.
Qed.

Lemma fetch_dataset_unfold e ds dh dim :
  fetch_dataset e ds dh dim =
    (let dl := join (get_data_home e dh) (NAME ds) in
     ensure_dir dl;;;
     records <- fetch_files e dl dim (ARCHIVE ds) [];;
     descr <- read_descr e (DESCRIPTION ds);;
     ret (bunch_set "DESCR" (BText descr) records)).
Proof. reflexivity. Qed.

Arguments fetch_dataset : simpl never.
Arguments ensure_dir : simpl never.
Arguments read_descr : simpl never.

(** A successful call is the three steps, each succeeding. *)
Lemma fetch_dataset_ok e ds dh dim st st' b :
  fetch_dataset e ds dh dim st = (st', inr b) ->
  let dl := join (get_data_home e dh) (NAME ds) in
  exists s1 s2 recs text,
    ensure_dir dl st = (s1, inr ()) /\
    fetch_files e dl dim (ARCHIVE ds) [] s1 = (s2, inr recs) /\
    descr_files e !! DESCRIPTION ds = Some text /\
    st' = add_event (EvReadDescr (DESCRIPTION ds)) s2 /\
    b = bunch_set "DESCR" (BText text) recs.
Proof.
  intros H dl. rewrite fetch_dataset_unfold in H. unfold_monad. fold dl in H.
  destruct (ensure_dir dl st) as [s1 [err|[]]] eqn:E1; simpl in H; [done|].
  destruct (fetch_files e dl dim (ARCHIVE ds) [] s1) as [s2 [err|recs]] eqn:E2;
    simpl in H; [done|].
  destruct (read_descr e (DESCRIPTION ds) s2) as [s3 r3] eqn:E3.
  apply read_descr_spec in E3 as [-> ->].
  destruct (descr_files e !! DESCRIPTION ds) as [text|] eqn:Et; simpl in H; [|done].
  injection H as <- <-. by exists s1, s2, recs, text.
Qed.

(** A failing call failed in one of its three steps, with that step's
    exception and state. *)
Lemma fetch_dataset_error_iff e ds dh dim st st' err :
  let dl := join (get_data_home e dh) (NAME ds) in
  fetch_dataset e ds dh dim st = (st', inl err) <->
  ensure_dir dl st = (st', inl err) \/
  (exists s1, ensure_dir dl st = (s1, inr ()) /\
     fetch_files e dl dim (ARCHIVE ds) [] s1 = (st', inl err)) \/
  (exists s1 s2 recs, ensure_dir dl st = (s1, inr ()) /\
     fetch_files e dl dim (ARCHIVE ds) [] s1 = (s2, inr recs) /\
     read_descr e (DESCRIPTION ds) s2 = (st', inl err)).
Proof.
  intros dl. rewrite fetch_dataset_unfold. unfold_monad. fold dl. split.
  - destruct (ensure_dir dl st) as [s1 [err1|[]]] eqn:E1; simpl.
    { intros [= -> ->]. by left. }
    destruct (fetch_files e dl dim (ARCHIVE ds) [] s1) as [s2 [err2|recs]] eqn:E2; simpl.
    { intros [= -> ->]. right; left. by exists s1. }
    destruct (read_descr e (DESCRIPTION ds) s2) as [s3 [err3|t]] eqn:E3; simpl.
    { intros [= -> ->]. right; right. by exists s1, s2, recs. }
    done.
  - intros [H|[(s1 & H1 & H2)|(s1 & s2 & recs & H1 & H2 & H3)]].
    + by rewrite H.
    + by rewrite H1, H2.
    + by rewrite H1, H2, H3.
Qed.

(** ** Strings *)

Lemma append_cons a (s t : string) :
  (String a s ++ t)%string = String a (s ++ t)%string.
Proof. reflexivity. Qed.

Lemma append_assoc (a b c : string) :
  (a ++ (b ++ c))%string = ((a ++ b) ++ c)%string.
Proof.
  induction a as [|x a IH]; [reflexivity|]. rewrite !append_cons. by rewrite IH.
Qed.

Lemma prefix_app (x y : string) : String.prefix x (x ++ y)%string = true.
Proof.
  induction x as [|a x IH]; [by destruct y|]. rewrite append_cons. simpl.
  destruct (Ascii.ascii_dec a a); [done|congruence].
Qed.

Lemma prefix_app_r (x h y : string) :
  String.prefix x h = true -> String.prefix x (h ++ y)%string = true.
Proof.
  revert h. induction x as [|a x IH]; intros h H; [by destruct (h ++ y)%string|].
  destruct h as [|b h]; [done|]. rewrite append_cons. simpl in *.
  destruct (Ascii.ascii_dec a b); [by apply IH|done].
Qed.

Lemma contains_cons (x : string) c h :
  contains x (String c h) = String.prefix x (String c h) || contains x h.
Proof. reflexivity. Qed.

Lemma contains_app_l (x a h : string) :
  contains x h = true -> contains x (a ++ h)%string = true.
Proof.
  intros H. induction a as [|c a IH]; [done|].
  rewrite append_cons, contains_cons, IH. apply orb_true_r.
Qed.

Lemma contains_app_r (x h y : string) :
  contains x h = true -> contains x (h ++ y)%string = true.
Proof.
  induction h as [|c h IH]; intros H.
  - simpl in H. destruct x; [|done]. by destruct y.
  - rewrite append_cons, contains_cons. rewrite contains_cons in H.
    apply orb_true_iff in H as [H|H].
    + pose proof (prefix_app_r _ (String c h) y H) as Hp.
      rewrite append_cons in Hp. by rewrite Hp.
    + rewrite IH by done. apply orb_true_r.
Qed.

Lemma contains_prefix (x y : string) : contains x (x ++ y)%string = true.
Proof.
  destruct x as [|a x].
  - by destruct y.
  - rewrite append_cons, contains_cons, <- append_cons, prefix_app. done.
Qed.

Lemma render_local_path h n f :
  render_path (join (join h n) f) = (render_path h ++ "/" ++ n ++ "/" ++ f)%string.
Proof. simpl. by rewrite <- !append_assoc. Qed.

(** ** The returned bundle *)

Lemma bundle_get_role ds dl v ft m :
  In ds datasets -> In (ft, m) (ARCHIVE ds) ->
  bunch_get ft (bunch_set "DESCR" v (archive_records dl (ARCHIVE ds) [])) =
    Some (BPath (join dl (filename m))).
Proof.
  intros [<-|[<-|[]]] Hin; simpl in Hin;
    repeat destruct Hin as [Hin|Hin]; try done; injection Hin as <- <-; reflexivity.
Qed.

Lemma bundle_get_descr ds dl v :
  In ds datasets ->
  bunch_get "DESCR" (bunch_set "DESCR" v (archive_records dl (ARCHIVE ds) [])) = Some v.
Proof. intros [<-|[<-|[]]]; reflexivity. Qed.

Lemma bundle_keys ds dl v :
  In ds datasets ->
  map fst (bunch_set "DESCR" v (archive_records dl (ARCHIVE ds) [])) =
    map fst (ARCHIVE ds) ++ ["DESCR"].
Proof. intros [<-|[<-|[]]]; reflexivity. Qed.

(** What a whole call can do to the state, whatever its result. *)
Lemma fetch_dataset_frame e ds dh dim st st' r :
  let dl := join (get_data_home e dh) (NAME ds) in
  fetch_dataset e ds dh dim st = (st', r) ->
  exists s1 r1, ensure_dir dl st = (s1, r1) /\
    dirs st' = dirs s1 /\
    (forall q c, Forall (fun it => q <> temp_path dl it.2) (ARCHIVE ds) ->
       files st !! q = Some c -> files st' !! q = Some c) /\
    (forall err, r1 = inl err -> st' = s1 /\ r = inl err).
Proof.
  intros dl H. rewrite fetch_dataset_unfold in H. unfold_monad. fold dl in H.
  destruct (ensure_dir dl st) as [s1 r1] eqn:E1.
  pose proof (ensure_dir_spec _ _ _ _ E1) as (Hf1 & _ & _ & _ & _ & _).
  exists s1, r1. split; [done|].
  destruct r1 as [err1|[]]; simpl in H.
  { injection H as <- <-. split_and!; [done| |by intros ? [= <-]].
    intros q c _ Hc. by rewrite Hf1. }
  destruct (fetch_files e dl dim (ARCHIVE ds) [] s1) as [s2 r2] eqn:E2.
  pose proof (fetch_files_spec _ _ _ _ _ _ _ _ E2) as (Hd2 & _ & Hf2 & _ & _).
  destruct r2 as [err2|recs]; simpl in H.
  { injection H as <- <-. split_and!; [done| |by intros ? [=]].
    intros q c Hq Hc. apply Hf2; [done|]. by rewrite Hf1. }
  destruct (read_descr e (DESCRIPTION ds) s2) as [s3 r3] eqn:E3.
  apply read_descr_spec in E3 as [-> _].
  destruct r3; simpl in H; injection H as <- _; (split_and!; [done| |by intros ? [=]]);
    intros q c Hq Hc; apply Hf2; try done; by rewrite Hf1.
Qed.

(* ------------------------------------------------------------------ *)
(** * The claims *)

(** C1, refuted: a cached file whose content does not have the expected
    checksum is returned as it is.  In [fs_corrupt] the topology file of
    adk_equilibrium is present with content "0bad"; the fetch succeeds,
    returns that path for "topology" and leaves the corrupt file there. *)
Lemma C1_counterexample :
  let p := local_path env0 adk_equilibrium None (adk_meta 0) in
  files fs_corrupt !! p = Some "0bad" /\ "0bad" <> checksum (adk_meta 0) /\
  exists b, (fetch_adk_equilibrium env0 None true fs_corrupt).2 = inr b /\
    bunch_get "topology" b = Some (BPath p) /\
    files (fetch_adk_equilibrium env0 None true fs_corrupt).1 !! p = Some "0bad".
Proof.
  split; [reflexivity|]. split; [discriminate|].
  eexists. split; [vm_compute; reflexivity|]. split; vm_compute; reflexivity.
Qed.

(** C1 (amended): fetch checks only that a cached file exists, not its
    checksum.  A file already present at the cache path of a role is left
    unchanged by the call (it is neither re-downloaded nor replaced), and a
    successful call returns that path for the role. *)
Theorem C1_cached_file_unverified e ds dh dim st st' r ft m c :
  In ds datasets -> In (ft, m) (ARCHIVE ds) ->
  files st !! local_path e ds dh m = Some c ->
  fetch_dataset e ds dh dim st = (st', r) ->
  files st' !! local_path e ds dh m = Some c /\
  (forall b, r = inr b -> bunch_get ft b = Some (BPath (local_path e ds dh m))).
Proof.
  intros Hds Hin Hc H. split.
  - destruct (fetch_dataset_frame _ _ _ _ _ _ _ H) as (s1 & r1 & _ & _ & Hf & _).
    apply Hf; [|done].
    pose proof (datasets_wf ds Hds) as Hwf. unfold archive_wf in Hwf.
    rewrite Forall_forall in Hwf.
    specialize (Hwf (ft, m) (proj2 (list_elem_of_In _ _) Hin)). simpl in Hwf.
    eapply Forall_impl; [exact Hwf|]. intros it Hit. by apply join_temp_neq.
  - intros b ->. apply fetch_dataset_ok in H as (s1 & s2 & recs & text & _ & E2 & _ & _ & ->).
    apply fetch_files_spec in E2 as (_ & _ & _ & _ & Hr). rewrite (Hr recs eq_refl).
    by apply bundle_get_role.
Qed.

Lemma C1_cached_file_unverified_witness :
  In adk_equilibrium datasets /\
  files (fetch_adk_equilibrium env0 None true fs_corrupt).1 !!
    local_path env0 adk_equilibrium None (adk_meta 0) = Some "0bad" /\
  (forall b, (fetch_adk_equilibrium env0 None true fs_corrupt).2 = inr b ->
     bunch_get "topology" b = Some (BPath (local_path env0 adk_equilibrium None (adk_meta 0)))).
Proof.
  split; [left; reflexivity|].
  apply (C1_cached_file_unverified env0 adk_equilibrium None true fs_corrupt
           (fetch_adk_equilibrium env0 None true fs_corrupt).1
           (fetch_adk_equilibrium env0 None true fs_corrupt).2
           "topology" (adk_meta 0) "0bad").
  - left; reflexivity.
  - left; reflexivity.
  - vm_compute. reflexivity.
  - vm_compute. reflexivity.
Defined.

Lemma ensure_dir_present dl s :
  path_exists s dl = true -> ensure_dir dl s = (s, inr ()).
Proof. intros H. unfold ensure_dir. unfold_monad. by rewrite H. Qed.

Lemma read_descr_found e d s t :
  descr_files e !! d = Some t ->
  read_descr e d s = (add_event (EvReadDescr d) s, inr t).
Proof. intros H. unfold read_descr. unfold_monad. by rewrite H. Qed.

Lemma temp_path_not_dir dl m : dl <> temp_path dl m.
Proof.
  unfold temp_path, join. intros H. apply (f_equal length) in H. simpl in H. lia.
Qed.

(** C2: fetch is idempotent.  After a successful call, a second call with
    the same arguments invokes neither the downloader nor the network (the
    count of such events in the log does not grow) and returns the same
    bundle, hence the same path for every role. *)
Theorem C2_fetch_idempotent e ds dh dim st st1 b1 st2 r2 :
  In ds datasets ->
  fetch_dataset e ds dh dim st = (st1, inr b1) ->
  fetch_dataset e ds dh dim st1 = (st2, r2) ->
  downloads (log st2) = downloads (log st1) /\ r2 = inr b1.
Proof.
  intros Hds H1 H2.
  set (dl := join (get_data_home e dh) (NAME ds)).
  apply fetch_dataset_ok in H1 as (s1 & s2 & recs & t & E1 & E2 & Ht & -> & ->).
  fold dl in E1, E2.
  pose proof (ensure_dir_spec _ _ _ _ E1) as (_ & _ & _ & _ & Hex1 & _).
  pose proof (fetch_files_spec _ _ _ _ _ _ _ _ E2) as (Hd2 & Hs2 & _ & _ & Hr2).
  pose proof (fetch_files_exist _ _ _ _ (datasets_wf ds Hds) _ _ _ _ E2) as Hall.
  rewrite (Hr2 recs eq_refl).
  assert (Hdl : path_exists s2 dl = true).
  { apply (exists_mono s1); [by rewrite Hd2| |by apply Hex1].
    apply Hs2. apply Forall_forall. intros it _. apply temp_path_not_dir. }
  rewrite fetch_dataset_unfold in H2. unfold_monad. fold dl in H2.
  rewrite ensure_dir_present in H2 by (by rewrite path_exists_add_event).
  simpl in H2.
  rewrite fetch_files_present in H2.
  2:{ apply first_missing_none. eapply Forall_impl; [exact Hall|].
      intros it Hit. by rewrite path_exists_add_event. }
  simpl in H2. rewrite (read_descr_found _ _ _ _ Ht) in H2. simpl in H2.
  injection H2 as <- <-. split; reflexivity.
Qed.

Lemma C2_fetch_idempotent_witness :
  downloads (log (fetch_adk_equilibrium env0 None true
                    (fetch_adk_equilibrium env0 None true fs0).1).1) =
  downloads (log (fetch_adk_equilibrium env0 None true fs0).1) /\
  (fetch_adk_equilibrium env0 None true (fetch_adk_equilibrium env0 None true fs0).1).2 =
  inr (result_bundle (fetch_adk_equilibrium env0 None true fs0).2).
Proof.
  apply (C2_fetch_idempotent env0 adk_equilibrium None true fs0
           (fetch_adk_equilibrium env0 None true fs0).1
           (result_bundle (fetch_adk_equilibrium env0 None true fs0).2)
           (fetch_adk_equilibrium env0 None true (fetch_adk_equilibrium env0 None true fs0).1).1
           (fetch_adk_equilibrium env0 None true (fetch_adk_equilibrium env0 None true fs0).1).2).
  - left; reflexivity.
  - vm_compute. reflexivity.
  - vm_compute. reflexivity.
Defined.

(** C5: for every role of the dataset, a successful call maps the role to
    [<data_home>/<dataset_name>/<filename>] and an entry exists at that
    path when the call returns ([os.path.exists]). *)
Theorem C5_bundle_paths e ds dh dim st st' b ft m :
  In ds datasets -> In (ft, m) (ARCHIVE ds) ->
  fetch_dataset e ds dh dim st = (st', inr b) ->
  let p := join (join (get_data_home e dh) (NAME ds)) (filename m) in
  bunch_get ft b = Some (BPath p) /\
  render_path p =
    (render_path (get_data_home e dh) ++ "/" ++ NAME ds ++ "/" ++ filename m)%string /\
  path_exists st' p = true.
Proof.
  intros Hds Hin H p.
  apply fetch_dataset_ok in H as (s1 & s2 & recs & t & E1 & E2 & Ht & -> & ->).
  pose proof (fetch_files_spec _ _ _ _ _ _ _ _ E2) as (_ & _ & _ & _ & Hr2).
  pose proof (fetch_files_exist _ _ _ _ (datasets_wf ds Hds) _ _ _ _ E2) as Hall.
  rewrite (Hr2 recs eq_refl). split_and!.
  - by apply bundle_get_role.
  - apply render_local_path.
  - rewrite path_exists_add_event. rewrite Forall_forall in Hall.
    apply (Hall (ft, m)). by apply list_elem_of_In.
Qed.

Lemma C5_bundle_paths_witness :
  let p := join (join (get_data_home env1 None) (NAME ifabp_water)) "ifabp_water_0.pdb" in
  bunch_get "structure" (result_bundle (fetch_ifabp_water env1 None true fs0).2) = Some (BPath p) /\
  render_path p = "/home/u/MDAnalysis_data/ifabp_water/ifabp_water_0.pdb" /\
  path_exists (fetch_ifabp_water env1 None true fs0).1 p = true.
Proof.
  apply (C5_bundle_paths env1 ifabp_water None true fs0
           (fetch_ifabp_water env1 None true fs0).1
           (result_bundle (fetch_ifabp_water env1 None true fs0).2)
           "structure" (snd (nth 1 (ARCHIVE ifabp_water) ("", adk_meta 0)))).
  - right; left; reflexivity.
  - right; left; reflexivity.
  - vm_compute. reflexivity.
Defined.

Lemma first_missing_none_inv s dl items it :
  first_missing s dl items = None -> In it items ->
  path_exists s (join dl (filename it.2)) = true.
Proof.
  unfold first_missing. intros H Hin. apply (find_none _ _ H) in Hin.
  by apply negb_false_iff in Hin.
Qed.

Lemma ensure_dir_absent dl s :
  path_exists s dl = false -> ensure_dir dl s = makedirs dl s.
Proof. intros H. unfold ensure_dir. unfold_monad. by rewrite H. Qed.

Lemma first_missing_ensure dl s s' r items :
  ensure_dir dl s = (s', r) ->
  first_missing s' dl items = first_missing s dl items.
Proof.
  intros H. unfold first_missing. induction items as [|it items IH]; [done|].
  cbn [find]. rewrite IH. unfold join. by rewrite (ensure_dir_child _ _ _ _ _ H).
Qed.

Lemma downloads_descr d l : downloads (EvReadDescr d :: l) = downloads l.
Proof. reflexivity. Qed.

(** A failing step of the loop: the file was missing; with downloads
    disabled the IOError is raised and the state is untouched, otherwise
    the downloader raised. *)
Lemma resolve_file_err e dl dim ft m s s' err :
  resolve_file e dl dim (ft, m) s = (s', inl err) ->
  path_exists s (join dl (filename m)) = false /\
  ((dim = false /\ s' = s /\ err = IOError (missing_msg ft (join dl (filename m)))) \/
   (dim = true /\ _fetch_remote e m dl s = (s', inl err))).
Proof.
  unfold resolve_file. unfold_monad.
  destruct (path_exists s (join dl (filename m))) eqn:Ep; simpl; [discriminate|].
  intros H. split; [done|]. destruct dim; simpl in H.
  - right. split; [done|].
    destruct (_fetch_remote e m dl s) as [s2 [e2|q]] eqn:E; simpl in H;
      [by injection H as <- <-|discriminate H].
  - left. by injection H as <- <-.
Qed.

(** C3, refuted: with downloads disabled the call can fail before it gets
    to the missing file.  In [fs_blocked], /home/data is a regular file;
    with [data_home = /home/data] no adk file is present, and the call
    fails with the NotADirectoryError of [os.makedirs], not with the
    missing-data IOError. *)
Lemma C3_counterexample :
  path_exists fs_blocked
    (local_path env0 adk_equilibrium (Some ["data"; "home"]) (adk_meta 0)) = false /\
  (fetch_adk_equilibrium env0 (Some ["data"; "home"]) false fs_blocked).2 =
    inl (NotADirectoryError ["adk_equilibrium"; "data"; "home"]).
Proof. split; vm_compute; reflexivity. Qed.

(** C3 (amended): with [download_if_missing=False] and the file of some
    role missing, the call fails and adds nothing to the log (no downloader
    invocation, no network request).  The exception is the missing-data
    IOError of the first role, in ARCHIVE order, whose file is missing
    before the call, or the exception of creating the dataset directory
    when that fails. *)
Theorem C3_missing_no_download e ds dh st st' r ft m :
  In (ft, m) (ARCHIVE ds) ->
  path_exists st (local_path e ds dh m) = false ->
  fetch_dataset e ds dh false st = (st', r) ->
  log st' = log st /\
  exists err, r = inl err /\
    ((exists ft' m',
        first_missing st (join (get_data_home e dh) (NAME ds)) (ARCHIVE ds) = Some (ft', m') /\
        In (ft', m') (ARCHIVE ds) /\
        path_exists st (local_path e ds dh m') = false /\
        err = IOError (missing_msg ft' (local_path e ds dh m'))) \/
     ensure_dir (join (get_data_home e dh) (NAME ds)) st = (st', inl err)).
Proof.
  intros Hin Hmiss H.
  set (dl := join (get_data_home e dh) (NAME ds)) in *.
  rewrite fetch_dataset_unfold in H. unfold_monad. fold dl in H.
  destruct (ensure_dir dl st) as [s1 r1] eqn:E1.
  pose proof (ensure_dir_spec _ _ _ _ E1) as (_ & Hl1 & _ & _ & _ & _).
  destruct r1 as [err1|[]]; simpl in H.
  { injection H as <- <-. split; [done|]. exists err1. split; [done|]. by right. }
  destruct (fetch_files e dl false (ARCHIVE ds) [] s1) as [s2 r2] eqn:E2.
  apply fetch_files_no_download in E2 as [-> ->].
  rewrite (first_missing_ensure _ _ _ _ _ E1) in H.
  destruct (first_missing st dl (ARCHIVE ds)) as [[ft' m']|] eqn:Efm; simpl in H.
  - injection H as <- <-. split; [done|]. eexists. split; [done|]. left.
    exists ft', m'. split; [done|].
    apply first_missing_some in Efm as [Hin' Hp']. by split_and!.
  - exfalso. pose proof (first_missing_none_inv _ _ _ (ft, m) Efm Hin) as Hp.
    unfold local_path in Hmiss. fold dl in Hmiss. simpl in Hp. congruence.
Qed.

Lemma C3_missing_no_download_witness :
  log (fetch_adk_equilibrium env0 None false fs0).1 = log fs0 /\
  exists err, (fetch_adk_equilibrium env0 None false fs0).2 = inl err /\
    ((exists ft' m',
        first_missing fs0 (join (get_data_home env0 None) (NAME adk_equilibrium))
          (ARCHIVE adk_equilibrium) = Some (ft', m') /\
        In (ft', m') (ARCHIVE adk_equilibrium) /\
        path_exists fs0 (local_path env0 adk_equilibrium None m') = false /\
        err = IOError (missing_msg ft' (local_path env0 adk_equilibrium None m'))) \/
     ensure_dir (join (get_data_home env0 None) (NAME adk_equilibrium)) fs0 =
       ((fetch_adk_equilibrium env0 None false fs0).1, inl err)).
Proof.
  apply (C3_missing_no_download env0 adk_equilibrium None fs0
           (fetch_adk_equilibrium env0 None false fs0).1
           (fetch_adk_equilibrium env0 None false fs0).2
           "topology" (adk_meta 0)).
  - left; reflexivity.
  - vm_compute. reflexivity.
  - vm_compute. reflexivity.
Defined.

(** C4: fetch is all-or-nothing.  Its result is either a bundle or an
    exception, never both; it raises exactly when one of its steps raises
    (creating the dataset directory, resolving the file of some role after
    the roles before it were resolved, or reading the description), and
    then the exception and the state are those the failing step left. *)
Theorem C4_errors_propagate e ds dh dim st st' err :
  let dl := join (get_data_home e dh) (NAME ds) in
  fetch_dataset e ds dh dim st = (st', inl err) <->
  ensure_dir dl st = (st', inl err) \/
  (exists s1, ensure_dir dl st = (s1, inr ()) /\
     exists pre it post s2 recs, ARCHIVE ds = pre ++ it :: post /\
       fetch_files e dl dim pre [] s1 = (s2, inr recs) /\
       resolve_file e dl dim it s2 = (st', inl err)) \/
  (exists s1 s2 recs, ensure_dir dl st = (s1, inr ()) /\
     fetch_files e dl dim (ARCHIVE ds) [] s1 = (s2, inr recs) /\
     read_descr e (DESCRIPTION ds) s2 = (st', inl err)).
Proof.
  intros dl. rewrite fetch_dataset_error_iff. fold dl.
  split; intros [H|[(s1 & H1 & H2)|H]]; try by left.
  - right; left. exists s1. split; [done|]. by apply fetch_files_error_iff.
  - by right; right.
  - right; left. exists s1. split; [done|]. by apply fetch_files_error_iff.
  - by right; right.
Qed.

(** C6, refuted: an exception raised by the downloader reaches the caller
    as it is, and the downloader is not told the role.  When the host
    serves corrupted topology bytes, the call fails with an IntegrityError
    whose message does not mention "topology". *)
Lemma C6_counterexample :
  (fetch_adk_equilibrium env_bad None true fs0).2 =
    inl (IntegrityError (local_path env_bad adk_equilibrium None (adk_meta 0))
                        (checksum (adk_meta 0)) "0bad") /\
  contains "topology"
    (exc_message (IntegrityError (local_path env_bad adk_equilibrium None (adk_meta 0))
                                 (checksum (adk_meta 0)) "0bad")) = false.
Proof. split; vm_compute; reflexivity. Qed.

(** C6 (amended): the only exception fetch raises itself is the IOError
    for a missing file with [download_if_missing=False]: it is raised for
    a role whose file is missing, and its message
    [Data <role>=<path> not found ...] names that role, the expected local
    path and, as a directory of that path, the dataset name.  Every other
    exception is passed on unchanged: the one the downloader raised for
    the file of a missing role, in the state the loop reached that role
    in; the one of creating the dataset directory; or the one of reading
    the description. *)
Theorem C6_error_messages e ds dh dim st st' err :
  fetch_dataset e ds dh dim st = (st', inl err) ->
  let dl := join (get_data_home e dh) (NAME ds) in
  (exists ft m, In (ft, m) (ARCHIVE ds) /\ dim = false /\
     path_exists st (local_path e ds dh m) = false /\
     err = IOError (missing_msg ft (local_path e ds dh m)) /\
     contains ft (exc_message err) = true /\
     contains (render_path (local_path e ds dh m)) (exc_message err) = true /\
     contains (NAME ds) (exc_message err) = true) \/
  (exists pre ft m post s1 s2 recs, ARCHIVE ds = pre ++ (ft, m) :: post /\ dim = true /\
     ensure_dir dl st = (s1, inr ()) /\
     fetch_files e dl dim pre [] s1 = (s2, inr recs) /\
     path_exists s2 (local_path e ds dh m) = false /\
     _fetch_remote e m dl s2 = (st', inl err)) \/
  ensure_dir dl st = (st', inl err) \/
  (exists s1 s2 recs, ensure_dir dl st = (s1, inr ()) /\
     fetch_files e dl dim (ARCHIVE ds) [] s1 = (s2, inr recs) /\
     read_descr e (DESCRIPTION ds) s2 = (st', inl err)).
Proof.
  intros H dl. apply fetch_dataset_error_iff in H. fold dl in H.
  destruct H as [H|[(s1 & H1 & H2)|(s1 & s2 & recs & H1 & H2 & H3)]].
  - by right; right; left.
  - apply fetch_files_error_iff in H2 as (pre & [ft m] & post & s2 & recs & Heq & Hpre & Hit).
    assert (Hin : In (ft, m) (ARCHIVE ds)).
    { rewrite Heq. apply in_or_app. right. by left. }
    apply resolve_file_err in Hit as (Hmiss & [(-> & -> & ->)|(-> & Hf)]).
    + left. exists ft, m. unfold local_path. fold dl.
      apply fetch_files_no_download in Hpre as [-> _].
      pose proof (ensure_dir_child _ _ _ _ (filename m) H1) as Hc.
      unfold join in Hmiss, Hc. rewrite Hc in Hmiss.
      split_and!; try done; cbn [exc_message]; unfold missing_msg.
      * apply contains_app_l, contains_prefix.
      * apply contains_app_l, contains_app_l, contains_app_l, contains_prefix.
      * apply contains_app_l, contains_app_l, contains_app_l.
        unfold dl. rewrite render_local_path.
        apply contains_app_r, contains_app_l, contains_app_l, contains_prefix.
    + right; left. by exists pre, ft, m, post, s1, s2, recs.
  - right; right; right. by exists s1, s2, recs.
Qed.

Lemma C6_error_messages_witness :
  let dl := join (get_data_home env0 None) (NAME adk_equilibrium) in
  let st' := (fetch_adk_equilibrium env0 None false fs0).1 in
  let err := IOError (missing_msg "topology" (local_path env0 adk_equilibrium None (adk_meta 0))) in
  (exists ft m, In (ft, m) (ARCHIVE adk_equilibrium) /\ false = false /\
     path_exists fs0 (local_path env0 adk_equilibrium None m) = false /\
     err = IOError (missing_msg ft (local_path env0 adk_equilibrium None m)) /\
     contains ft (exc_message err) = true /\
     contains (render_path (local_path env0 adk_equilibrium None m)) (exc_message err) = true /\
     contains (NAME adk_equilibrium) (exc_message err) = true) \/
  (exists pre ft m post s1 s2 recs, ARCHIVE adk_equilibrium = pre ++ (ft, m) :: post /\
     false = true /\
     ensure_dir dl fs0 = (s1, inr ()) /\
     fetch_files env0 dl false pre [] s1 = (s2, inr recs) /\
     path_exists s2 (local_path env0 adk_equilibrium None m) = false /\
     _fetch_remote env0 m dl s2 = (st', inl err)) \/
  ensure_dir dl fs0 = (st', inl err) \/
  (exists s1 s2 recs, ensure_dir dl fs0 = (s1, inr ()) /\
     fetch_files env0 dl false (ARCHIVE adk_equilibrium) [] s1 = (s2, inr recs) /\
     read_descr env0 (DESCRIPTION adk_equilibrium) s2 = (st', inl err)).
Proof.
  apply (C6_error_messages env0 adk_equilibrium None false fs0
           (fetch_adk_equilibrium env0 None false fs0).1).
  vm_compute. reflexivity.
Defined.

(** C7, refuted: the dataset directory need not exist after the call.
    When /home/data is a regular file, [os.makedirs] cannot create
    /home/data/adk_equilibrium, and the directory is absent after the call
    as it was before. *)
Lemma C7_counterexample :
  let dl := ["adk_equilibrium"; "data"; "home"] in
  dl = join (get_data_home env0 (Some ["data"; "home"])) (NAME adk_equilibrium) /\
  path_exists fs_blocked dl = false /\
  path_exists (fetch_adk_equilibrium env0 (Some ["data"; "home"]) true fs_blocked).1 dl = false.
Proof. split_and!; vm_compute; reflexivity. Qed.

(** C7 (amended): the only directories fetch creates are
    <data_home>/<NAME> and its missing ancestors; it removes none.  When
    the dataset directory exists the directories are unchanged and no
    error is raised; when it is absent it exists afterwards unless its
    creation raised, and then fetch raises that exception.  When
    data_home is fresh and its parent is a directory, and the dataset
    directory exists after the call, exactly data_home and the dataset
    directory were added. *)
Theorem C7_dataset_dir e ds dh dim st st' r :
  fetch_dataset e ds dh dim st = (st', r) ->
  let dl := join (get_data_home e dh) (NAME ds) in
  dirs st ⊆ dirs st' /\
  (forall d, d ∈ dirs st' -> d ∉ dirs st -> exists k, dl = k ++ d) /\
  (path_exists st dl = true -> dirs st' = dirs st /\ ensure_dir dl st = (st, inr ())) /\
  (path_exists st dl = false ->
     dl ∈ dirs st' \/ exists err, makedirs dl st = (st', inl err) /\ r = inl err) /\
  (forall c par, get_data_home e dh = c :: par -> is_dir st par = true ->
     path_exists st (c :: par) = false -> path_exists st dl = false ->
     dl ∈ dirs st' ->
     dirs st' = {[dl]} ∪ ({[c :: par]} ∪ dirs st)).
Proof.
  intros H dl.
  destruct (fetch_dataset_frame _ _ _ _ _ _ _ H) as (s1 & r1 & E1 & Hd & _ & Herr).
  fold dl in E1.
  pose proof (ensure_dir_spec _ _ _ _ E1) as (_ & _ & Hsub & Hnew & _ & Hpres).
  split_and!.
  - by rewrite Hd.
  - intros d. rewrite Hd. apply Hnew.
  - intros Hp. destruct (Hpres Hp) as [-> ->]. by split.
  - intros Ha. rewrite <- (ensure_dir_absent _ _ Ha). destruct r1 as [err|[]].
    + right. exists err. destruct (Herr err eq_refl) as [-> ->]. by split.
    + left. rewrite Hd. apply (makedirs_ok dl st).
      by rewrite <- (ensure_dir_absent _ _ Ha).
  - intros c par Hh Hpar Hc Ha _.
    rewrite (ensure_dir_absent _ _ Ha) in E1.
    unfold dl, join in E1 |- *. rewrite Hh in E1 |- *.
    unfold dl, join in Ha. rewrite Hh in Ha.
    rewrite (makedirs_fresh c (NAME ds) par st Hpar Hc Ha) in E1.
    injection E1 as <- _. by rewrite Hd.
Qed.

Lemma C7_dataset_dir_witness :
  let st' := (fetch_adk_equilibrium env0 None true fs0).1 in
  let r := (fetch_adk_equilibrium env0 None true fs0).2 in
  let dl := join (get_data_home env0 None) (NAME adk_equilibrium) in
  dirs fs0 ⊆ dirs st' /\
  (forall d, d ∈ dirs st' -> d ∉ dirs fs0 -> exists k, dl = k ++ d) /\
  (path_exists fs0 dl = true -> dirs st' = dirs fs0 /\ ensure_dir dl fs0 = (fs0, inr ())) /\
  (path_exists fs0 dl = false ->
     dl ∈ dirs st' \/ exists err, makedirs dl fs0 = (st', inl err) /\ r = inl err) /\
  (forall c par, get_data_home env0 None = c :: par -> is_dir fs0 par = true ->
     path_exists fs0 (c :: par) = false -> path_exists fs0 dl = false ->
     dl ∈ dirs st' ->
     dirs st' = {[dl]} ∪ ({[c :: par]} ∪ dirs fs0)).
Proof.
  apply (C7_dataset_dir env0 adk_equilibrium None true fs0).
  vm_compute. reflexivity.
Defined.

(** C8: on success the DESCR entry is the text of descr/<NAME>.rst of the
    package ([DESCRIPTION] is [NAME ++ ".rst"] for both datasets); it is
    read after all files were resolved: the read is the last event, the
    state before it already holds every file of the dataset, and no earlier
    event of the call reads a description. *)
Theorem C8_descr e ds dh dim st st' b :
  In ds datasets ->
  fetch_dataset e ds dh dim st = (st', inr b) ->
  DESCRIPTION ds = (NAME ds ++ ".rst")%string /\
  exists text mid, descr_files e !! DESCRIPTION ds = Some text /\
    bunch_get "DESCR" b = Some (BText text) /\
    log st' = EvReadDescr (DESCRIPTION ds) :: log mid /\
    dirs mid = dirs st' /\ files mid = files st' /\
    Forall (fun it => path_exists mid (local_path e ds dh it.2) = true) (ARCHIVE ds) /\
    exists evs, log mid = evs ++ log st /\ Forall (fun ev => is_descr_read ev = false) evs.
Proof.
  intros Hds H. split.
  { by destruct Hds as [<-|[<-|[]]]. }
  destruct (fetch_dataset_ok _ _ _ _ _ _ _ H) as (s1 & s2 & recs & text & E1 & E2 & Ht & -> & ->).
  pose proof (ensure_dir_spec _ _ _ _ E1) as (_ & Hl1 & _).
  pose proof (fetch_files_spec _ _ _ _ _ _ _ _ E2) as (_ & _ & _ & (evs & Hl2 & Hevs) & Hrec).
  rewrite (Hrec recs eq_refl).
  exists text, s2. split_and!; try done.
  - by apply bundle_get_descr.
  - apply (fetch_files_exist _ _ _ _ (datasets_wf _ Hds) _ _ _ _ E2).
  - exists evs. rewrite Hl2, Hl1. split; [done|].
    eapply Forall_impl; [exact Hevs|]. by intros [] ?.
Qed.

Lemma C8_descr_witness :
  let st' := (fetch_adk_equilibrium env0 None true fs0).1 in
  let b := result_bundle (fetch_adk_equilibrium env0 None true fs0).2 in
  DESCRIPTION adk_equilibrium = (NAME adk_equilibrium ++ ".rst")%string /\
  exists text mid, descr_files env0 !! DESCRIPTION adk_equilibrium = Some text /\
    bunch_get "DESCR" b = Some (BText text) /\
    log st' = EvReadDescr (DESCRIPTION adk_equilibrium) :: log mid /\
    dirs mid = dirs st' /\ files mid = files st' /\
    Forall (fun it => path_exists mid (local_path env0 adk_equilibrium None it.2) = true)
      (ARCHIVE adk_equilibrium) /\
    exists evs, log mid = evs ++ log fs0 /\ Forall (fun ev => is_descr_read ev = false) evs.
Proof.
  apply (C8_descr env0 adk_equilibrium None true fs0).
  - left; reflexivity.
  - vm_compute. reflexivity.
Defined.

(** C9, refuted: with [download_if_missing=False] a missing file does not
    always give the missing-data IOError: when the dataset directory cannot
    be created the call fails earlier with the exception of
    [os.makedirs]. *)
Lemma C9_counterexample :
  let dh := Some ["data"; "home"] in
  first_missing fs_blocked (join (get_data_home env0 dh) (NAME adk_equilibrium))
    (ARCHIVE adk_equilibrium) = Some ("topology", adk_meta 0) /\
  (fetch_adk_equilibrium env0 dh false fs_blocked).2 =
    inl (NotADirectoryError ["adk_equilibrium"; "data"; "home"]).
Proof. split; vm_compute; reflexivity. Qed.

(** C9 (amended): with [download_if_missing=False] the call makes no
    downloader invocation and no network request; it succeeds only if
    every file was present before the call; otherwise it raises the
    exception of creating the dataset directory, or, that directory being
    in place, the missing-data IOError of the first missing role in
    archive order. *)
Theorem C9_no_download_mode e ds dh st st' r :
  fetch_dataset e ds dh false st = (st', r) ->
  let dl := join (get_data_home e dh) (NAME ds) in
  downloads (log st') = downloads (log st) /\
  (forall b, r = inr b ->
     Forall (fun it => path_exists st (local_path e ds dh it.2) = true) (ARCHIVE ds)) /\
  (forall err, r = inl err ->
     ensure_dir dl st = (st', inl err) \/
     (exists s1, ensure_dir dl st = (s1, inr ()) /\
        match first_missing st dl (ARCHIVE ds) with
        | Some (ft, m) => err = IOError (missing_msg ft (local_path e ds dh m)) /\ st' = s1
        | None => read_descr e (DESCRIPTION ds) s1 = (st', inl err)
        end)).
Proof.
  intros H dl.
  rewrite fetch_dataset_unfold in H. unfold_monad. fold dl in H.
  destruct (ensure_dir dl st) as [s1 r1] eqn:E1.
  pose proof (ensure_dir_spec _ _ _ _ E1) as (_ & Hl1 & _).
  destruct r1 as [err1|[]]; simpl in H.
  { injection H as <- <-. split_and!.
    - by rewrite Hl1.
    - by intros ? ?.
    - intros err [= <-]. by left. }
  destruct (fetch_files e dl false (ARCHIVE ds) [] s1) as [s2 r2] eqn:E2.
  apply fetch_files_no_download in E2 as [-> ->].
  rewrite (first_missing_ensure _ _ _ _ _ E1) in H.
  destruct (first_missing st dl (ARCHIVE ds)) as [[ft m]|] eqn:Efm; simpl in H.
  - injection H as <- <-. split_and!.
    + by rewrite Hl1.
    + by intros ? ?.
    + intros err [= <-]. right. by exists s1.
  - destruct (read_descr e (DESCRIPTION ds) s1) as [s3 r3] eqn:E3.
    pose proof (read_descr_spec _ _ _ _ _ E3) as [-> _].
    destruct r3 as [err3|text]; simpl in H; injection H as <- <-; split_and!.
    + simpl. by rewrite Hl1.
    + by intros ? ?.
    + intros err [= <-]. right. by exists s1.
    + simpl. by rewrite Hl1.
    + intros _ _. apply Forall_forall. intros it Hin.
      apply list_elem_of_In in Hin. by apply (first_missing_none_inv _ _ _ _ Efm Hin).
    + by intros ? ?.
Qed.

Lemma C9_no_download_mode_witness :
  let st' := (fetch_adk_equilibrium env0 None false fs0).1 in
  let r := (fetch_adk_equilibrium env0 None false fs0).2 in
  let dl := join (get_data_home env0 None) (NAME adk_equilibrium) in
  downloads (log st') = downloads (log fs0) /\
  (forall b, r = inr b ->
     Forall (fun it => path_exists fs0 (local_path env0 adk_equilibrium None it.2) = true)
       (ARCHIVE adk_equilibrium)) /\
  (forall err, r = inl err ->
     ensure_dir dl fs0 = (st', inl err) \/
     (exists s1, ensure_dir dl fs0 = (s1, inr ()) /\
        match first_missing fs0 dl (ARCHIVE adk_equilibrium) with
        | Some (ft, m) => err = IOError (missing_msg ft (local_path env0 adk_equilibrium None m)) /\ st' = s1
        | None => read_descr env0 (DESCRIPTION adk_equilibrium) s1 = (st', inl err)
        end)).
Proof.
  apply (C9_no_download_mode env0 adk_equilibrium None fs0).
  vm_compute. reflexivity.
Defined.

(** C10: a successful bundle has one key per role of the dataset, in the
    order of its ARCHIVE, followed by DESCR: topology, trajectory and DESCR
    for the AdK equilibrium dataset; topology, structure, trajectory and
    DESCR for the I-FABP dataset. *)
Theorem C10_bundle_keys e ds dh dim st st' b :
  In ds datasets ->
  fetch_dataset e ds dh dim st = (st', inr b) ->
  map fst b = map fst (ARCHIVE ds) ++ ["DESCR"] /\
  (ds = adk_equilibrium -> map fst b = ["topology"; "trajectory"; "DESCR"]) /\
  (ds = ifabp_water -> map fst b = ["topology"; "structure"; "trajectory"; "DESCR"]).
Proof.
  intros Hds H.
  destruct (fetch_dataset_ok _ _ _ _ _ _ _ H) as (s1 & s2 & recs & text & _ & E2 & _ & _ & ->).
  pose proof (fetch_files_spec _ _ _ _ _ _ _ _ E2) as (_ & _ & _ & _ & Hrec).
  rewrite (Hrec recs eq_refl), (bundle_keys _ _ _ Hds).
  split_and!; [done| |]; by intros ->.
Qed.

Lemma C10_bundle_keys_witness :
  let b := result_bundle (fetch_ifabp_water env1 None true fs0).2 in
  map fst b = map fst (ARCHIVE ifabp_water) ++ ["DESCR"] /\
  (ifabp_water = adk_equilibrium -> map fst b = ["topology"; "trajectory"; "DESCR"]) /\
  (ifabp_water = ifabp_water -> map fst b = ["topology"; "structure"; "trajectory"; "DESCR"]).
Proof.
  apply (C10_bundle_keys env1 ifabp_water None true fs0 (fetch_ifabp_water env1 None true fs0).1).
  - right; left; reflexivity.
  - vm_compute. reflexivity.
Defined.

(* ------------------------------------------------------------------ *)
(** * Further properties of the fetch functions *)

Lemma path_exists_eq s s' q :
  dirs s' = dirs s -> files s' !! q = files s !! q -> path_exists s' q = path_exists s q.
Proof. intros Hd Hf. destruct q; [reflexivity|]. unfold path_exists. by rewrite Hd, Hf. Qed.

Lemma archive_wf_app_l l1 l2 : archive_wf (l1 ++ l2) -> archive_wf l1.
Proof.
  unfold archive_wf. intros H. apply Forall_app in H as [H _].
  eapply Forall_impl; [exact H|]. intros it Hit. by apply Forall_app in Hit as [? _].
Qed.

Lemma archive_wf_cons it l : archive_wf (it :: l) -> archive_wf l.
Proof.
  unfold archive_wf. intros H. apply Forall_cons in H as [_ H].
  eapply Forall_impl; [exact H|]. intros it' Hit. by apply Forall_cons in Hit as [_ ?].
Qed.

Lemma archive_wf_pair dl items it1 it2 :
  archive_wf items -> In it1 items -> In it2 items ->
  join dl (filename it1.2) <> temp_path dl it2.2.
Proof.
  unfold archive_wf. intros H H1 H2. apply join_temp_neq.
  rewrite Forall_forall in H. specialize (H it1 (proj2 (list_elem_of_In _ _) H1)).
  rewrite Forall_forall in H. exact (H it2 (proj2 (list_elem_of_In _ _) H2)).
Qed.

Lemma datasets_nodup ds :
  In ds datasets -> NoDup (map (fun it => filename it.2) (ARCHIVE ds)).
Proof. intros [<-|[<-|[]]]; apply (bool_decide_unpack _); vm_compute; reflexivity. Qed.

Lemma fetch_targets_app l1 l2 :
  fetch_targets (l1 ++ l2) = fetch_targets l2 ++ fetch_targets l1.
Proof.
  induction l1 as [|[] l1 IH]; simpl; rewrite ?IH, ?app_assoc, ?app_nil_r; done.
Qed.

Lemma fetch_targets_net u evs :
  Forall (fun ev => ev = EvNet u) evs -> fetch_targets evs = [].
Proof. induction 1 as [|ev evs -> _ IH]; [done|]. exact IH. Qed.

Lemma resolve_file_download e dl ft m s s' r :
  resolve_file e dl true (ft, m) s = (s', r) ->
  path_exists s (join dl (filename m)) = false ->
  exists r', _fetch_remote e m dl s = (s', r') /\ (forall err, r = inl err -> r' = inl err).
Proof.
  intros H Hp. unfold resolve_file in H. unfold_monad. rewrite Hp in H. simpl in H.
  destruct (_fetch_remote e m dl s) as [s2 [err|q]] eqn:E; simpl in H;
    injection H as <- <-.
  - exists (inl err). split; [done|]. by intros ? [= <-].
  - exists (inr q). split; [done|]. by intros ? [=].
Qed.

Lemma fetch_files_outside e dl dim items :
  forall recs s s' r q, fetch_files e dl dim items recs s = (s', r) ->
  (forall f, q <> join dl f) -> files s' !! q = files s !! q.
Proof.
  induction items as [|[ft m] rest IH]; intros recs s s' r q H Hq.
  - unfold fetch_files in H. unfold_monad. by injection H as <- _.
  - rewrite fetch_files_cons in H. unfold_monad.
    destruct (resolve_file e dl dim (ft, m) s) as [s1 r1] eqn:E1.
    pose proof (resolve_file_spec _ _ _ _ _ _ _ _ E1) as (_ & Hf1 & _).
    assert (Hq1 : files s1 !! q = files s !! q) by (apply Hf1; apply Hq).
    destruct r1 as [err|[]]; simpl in H.
    + by injection H as <- _.
    + by rewrite (IH _ _ _ _ _ H Hq).
Qed.

Lemma fetch_dataset_outside e ds dh dim st st' r q :
  fetch_dataset e ds dh dim st = (st', r) ->
  (forall f, q <> join (join (get_data_home e dh) (NAME ds)) f) ->
  files st' !! q = files st !! q.
Proof.
  intros H Hq. set (dl := join (get_data_home e dh) (NAME ds)) in *.
  rewrite fetch_dataset_unfold in H. unfold_monad. fold dl in H.
  destruct (ensure_dir dl st) as [s1 r1] eqn:E1.
  pose proof (ensure_dir_spec _ _ _ _ E1) as (Hf1 & _).
  destruct r1 as [err|[]]; simpl in H.
  { injection H as <- _. by rewrite Hf1. }
  destruct (fetch_files e dl dim (ARCHIVE ds) [] s1) as [s2 r2] eqn:E2.
  rewrite <- Hf1, <- (fetch_files_outside _ _ _ _ _ _ _ _ _ E2 Hq).
  destruct r2 as [err|recs]; simpl in H.
  { by injection H as <- _. }
  destruct (read_descr e (DESCRIPTION ds) s2) as [s3 r3] eqn:E3.
  apply read_descr_spec in E3 as [-> _].
  destruct r3; simpl in H; by injection H as <- _.
Qed.

Lemma fetch_files_targets e dl dim items :
  archive_wf items -> NoDup (map (fun it => filename it.2) items) ->
  forall recs s s' recs', fetch_files e dl dim items recs s = (s', inr recs') ->
  exists evs, log s' = evs ++ log s /\
    fetch_targets evs = map (fun it => (it.2, dl))
      (List.filter (fun it => negb (path_exists s (join dl (filename it.2)))) items).
Proof.
  induction items as [|[ft m] rest IH]; intros Hwf Hnd recs s s' recs' H.
  - unfold fetch_files in H. unfold_monad. injection H as <- _. by exists [].
  - pose proof (archive_wf_cons _ _ Hwf) as Hwf'.
    inversion Hnd as [|? ? Hnm Hnd']; subst. simpl in Hnm.
    rewrite fetch_files_cons in H. unfold_monad.
    destruct (resolve_file e dl dim (ft, m) s) as [s1 r1] eqn:E1.
    destruct r1 as [err|[]]; simpl in H; [discriminate|].
    destruct (IH Hwf' Hnd' _ _ _ _ H) as (evs2 & Hl2 & Ht2).
    pose proof (resolve_file_spec _ _ _ _ _ _ _ _ E1)
      as (Hd1 & Hf1 & _ & _ & Hpres & _ & Hnodl & _).
    assert (Hrest :
      List.filter (fun it => negb (path_exists s1 (join dl (filename it.2)))) rest =
      List.filter (fun it => negb (path_exists s (join dl (filename it.2)))) rest).
    { apply filter_ext_in. intros it Hin. f_equal. apply path_exists_eq; [done|].
      apply Hf1.
      - apply (archive_wf_pair dl ((ft, m) :: rest) it (ft, m) Hwf); [by right|by left].
      - unfold join. intros [= Heq]. apply Hnm. rewrite <- Heq.
        apply list_elem_of_In, in_map_iff. by exists it. }
    rewrite Hrest in Ht2. simpl.
    destruct (path_exists s (join dl (filename m))) eqn:Ep; simpl.
    + destruct (Hpres eq_refl) as [-> _]. by exists evs2.
    + destruct dim.
      * destruct (resolve_file_download _ _ _ _ _ _ _ E1 Ep) as (r' & Hr & _).
        destruct (fetch_remote_log_err _ _ _ _ _ _ Hr) as [(evs0 & Hl0 & Hev0) _].
        exists (evs2 ++ evs0 ++ [EvFetchRemote m dl]). split.
        { rewrite Hl2, Hl0. by rewrite <- !app_assoc. }
        rewrite !fetch_targets_app, (fetch_targets_net _ _ Hev0), Ht2. reflexivity.
      * destruct (Hnodl eq_refl) as [_ Hio]. by specialize (Hio eq_refl).
Qed.

(** X1: when the dataset directory and the file of every role are already
    present, the call makes no change to the files or directories and no
    download, whatever [download_if_missing] is: it only reads the
    description and returns the bundle. *)
Theorem X1_all_cached e ds dh dim st text :
  let dl := join (get_data_home e dh) (NAME ds) in
  path_exists st dl = true ->
  Forall (fun it => path_exists st (join dl (filename it.2)) = true) (ARCHIVE ds) ->
  descr_files e !! DESCRIPTION ds = Some text ->
  fetch_dataset e ds dh dim st =
    (add_event (EvReadDescr (DESCRIPTION ds)) st,
     inr (bunch_set "DESCR" (BText text) (archive_records dl (ARCHIVE ds) []))).
Proof.
  intros dl Hdl Hall Ht.
  rewrite fetch_dataset_unfold. unfold_monad. fold dl.
  rewrite (ensure_dir_present _ _ Hdl). simpl.
  rewrite (fetch_files_present _ _ _ _ _ _ (first_missing_none _ _ _ Hall)). simpl.
  rewrite (read_descr_found _ _ _ _ Ht). reflexivity.
Qed.

Lemma X1_all_cached_witness :
  let st := (fetch_adk_equilibrium env0 None true fs0).1 in
  let dl := join (get_data_home env0 None) (NAME adk_equilibrium) in
  fetch_dataset env0 adk_equilibrium None false st =
    (add_event (EvReadDescr (DESCRIPTION adk_equilibrium)) st,
     inr (bunch_set "DESCR" (BText "AdK equilibrium trajectory")
            (archive_records dl (ARCHIVE adk_equilibrium) []))).
Proof.
  apply (X1_all_cached env0 adk_equilibrium None false
           (fetch_adk_equilibrium env0 None true fs0).1 "AdK equilibrium trajectory").
  - vm_compute. reflexivity.
  - vm_compute. repeat constructor.
  - vm_compute. reflexivity.
Defined.

(** X3: a call writes files only inside the dataset directory
    <data_home>/<NAME>: every path whose content differs after the call is
    a direct child of that directory.  A file present before the call keeps
    its content unless it sits at the downloader's temporary path
    <filename>.part of a role. *)
Theorem X3_writes_in_dataset_dir e ds dh dim st st' r :
  fetch_dataset e ds dh dim st = (st', r) ->
  let dl := join (get_data_home e dh) (NAME ds) in
  (forall q, files st' !! q <> files st !! q -> exists f, q = join dl f) /\
  (forall q c, Forall (fun it => q <> temp_path dl it.2) (ARCHIVE ds) ->
     files st !! q = Some c -> files st' !! q = Some c).
Proof.
  intros H dl. split.
  2:{ destruct (fetch_dataset_frame _ _ _ _ _ _ _ H) as (_ & _ & _ & _ & Hf & _). exact Hf. }
  intros q Hne. destruct q as [|f q'].
  { exfalso. apply Hne. apply (fetch_dataset_outside _ _ _ _ _ _ _ _ H). by intros f. }
  destruct (decide (q' = dl)) as [->|Hq']; [by exists f|].
  exfalso. apply Hne. apply (fetch_dataset_outside _ _ _ _ _ _ _ _ H).
  intros f' [= _ Heq]. by apply Hq'.
Qed.

Lemma X3_writes_in_dataset_dir_witness :
  let st' := (fetch_adk_equilibrium env0 None true fs0).1 in
  let dl := join (get_data_home env0 None) (NAME adk_equilibrium) in
  (forall q, files st' !! q <> files fs0 !! q -> exists f, q = join dl f) /\
  (forall q c, Forall (fun it => q <> temp_path dl it.2) (ARCHIVE adk_equilibrium) ->
     files fs0 !! q = Some c -> files st' !! q = Some c).
Proof.
  apply (X3_writes_in_dataset_dir env0 adk_equilibrium None true fs0 _
           (fetch_adk_equilibrium env0 None true fs0).2).
  vm_compute. reflexivity.
Defined.

(** X4: a successful call invokes the downloader exactly once for each
    role whose file was missing before the call, in ARCHIVE order, with
    the dataset directory as target, and for no other role. *)
Theorem X4_downloads_missing_in_order e ds dh dim st st' b :
  In ds datasets ->
  fetch_dataset e ds dh dim st = (st', inr b) ->
  let dl := join (get_data_home e dh) (NAME ds) in
  exists evs, log st' = evs ++ log st /\
    fetch_targets evs = map (fun it => (it.2, dl))
      (List.filter (fun it => negb (path_exists st (join dl (filename it.2)))) (ARCHIVE ds)).
Proof.
  intros Hds H dl.
  destruct (fetch_dataset_ok _ _ _ _ _ _ _ H) as (s1 & s2 & recs & text & E1 & E2 & _ & -> & _).
  pose proof (ensure_dir_spec _ _ _ _ E1) as (_ & Hl1 & _).
  destruct (fetch_files_targets _ _ _ _ (datasets_wf _ Hds) (datasets_nodup _ Hds) _ _ _ _ E2)
    as (evs & Hl2 & Ht).
  exists (EvReadDescr (DESCRIPTION ds) :: evs). split.
  - simpl. by rewrite Hl2, Hl1.
  - simpl. rewrite Ht. f_equal. apply filter_ext_in. intros it _. unfold join.
    by rewrite (ensure_dir_child _ _ _ _ _ E1).
Qed.

Lemma X4_downloads_missing_in_order_witness :
  let st' := (fetch_ifabp_water env1 None true fs0).1 in
  let dl := join (get_data_home env1 None) (NAME ifabp_water) in
  exists evs, log st' = evs ++ log fs0 /\
    fetch_targets evs = map (fun it => (it.2, dl))
      (List.filter (fun it => negb (path_exists fs0 (join dl (filename it.2)))) (ARCHIVE ifabp_water)).
Proof.
  apply (X4_downloads_missing_in_order env1 ifabp_water None true fs0 _
           (result_bundle (fetch_ifabp_water env1 None true fs0).2)).
  - right; left; reflexivity.
  - vm_compute. reflexivity.
Defined.

(** X5: with [download_if_missing=False] a call writes no file.  When the
    dataset directory already exists it changes nothing at all, apart from
    recording the read of the description; in particular a call that
    fails on a missing file has no effect. *)
Theorem X5_no_download_no_write e ds dh st st' r :
  fetch_dataset e ds dh false st = (st', r) ->
  files st' = files st /\
  (path_exists st (join (get_data_home e dh) (NAME ds)) = true ->
     st' = st \/ st' = add_event (EvReadDescr (DESCRIPTION ds)) st).
Proof.
  intros H. set (dl := join (get_data_home e dh) (NAME ds)) in *.
  rewrite fetch_dataset_unfold in H. unfold_monad. fold dl in H.
  destruct (ensure_dir dl st) as [s1 r1] eqn:E1.
  pose proof (ensure_dir_spec _ _ _ _ E1) as (Hf1 & _ & _ & _ & _ & Hpres).
  destruct r1 as [err1|[]]; simpl in H.
  { injection H as <- <-. split; [done|]. intros Hp. by destruct (Hpres Hp) as [_ [=]]. }
  destruct (fetch_files e dl false (ARCHIVE ds) [] s1) as [s2 r2] eqn:E2.
  apply fetch_files_no_download in E2 as [-> ->].
  assert (Hs1 : path_exists st dl = true -> s1 = st) by (intros Hp; by destruct (Hpres Hp)).
  destruct (first_missing s1 dl (ARCHIVE ds)) as [[ft m]|]; simpl in H.
  - injection H as <- <-. split; [done|]. intros Hp. left. by apply Hs1.
  - destruct (read_descr e (DESCRIPTION ds) s1) as [s3 r3] eqn:E3.
    apply read_descr_spec in E3 as [-> _].
    destruct r3; simpl in H; injection H as <- <-; (split; [done|]);
      intros Hp; right; by rewrite (Hs1 Hp).
Qed.

Lemma X5_no_download_no_write_witness :
  let st' := (fetch_adk_equilibrium env0 None false fs_corrupt).1 in
  files st' = files fs_corrupt /\
  (path_exists fs_corrupt (join (get_data_home env0 None) (NAME adk_equilibrium)) = true ->
     st' = fs_corrupt \/ st' = add_event (EvReadDescr (DESCRIPTION adk_equilibrium)) fs_corrupt).
Proof.
  apply (X5_no_download_no_write env0 adk_equilibrium None fs_corrupt _
           (fetch_adk_equilibrium env0 None false fs_corrupt).2).
  vm_compute. reflexivity.
Defined.

(** X6: the bundle does not depend on the cache: two successful calls for
    the same dataset and data_home return the same bundle, whatever the
    state of the file system before each and whatever
    [download_if_missing] is. *)
Theorem X6_bundle_independent_of_cache e ds dh dim1 dim2 st1 st2 st1' st2' b1 b2 :
  fetch_dataset e ds dh dim1 st1 = (st1', inr b1) ->
  fetch_dataset e ds dh dim2 st2 = (st2', inr b2) ->
  b1 = b2.
Proof.
  intros H1 H2.
  destruct (fetch_dataset_ok _ _ _ _ _ _ _ H1) as (s1 & s2 & recs1 & t1 & _ & E2 & Ht1 & _ & ->).
  destruct (fetch_dataset_ok _ _ _ _ _ _ _ H2) as (u1 & u2 & recs2 & t2 & _ & F2 & Ht2 & _ & ->).
  pose proof (fetch_files_spec _ _ _ _ _ _ _ _ E2) as (_ & _ & _ & _ & Hr1).
  pose proof (fetch_files_spec _ _ _ _ _ _ _ _ F2) as (_ & _ & _ & _ & Hr2).
  rewrite (Hr1 recs1 eq_refl), (Hr2 recs2 eq_refl).
  assert (t1 = t2) as -> by congruence. reflexivity.
Qed.

Lemma X6_bundle_independent_of_cache_witness :
  result_bundle (fetch_adk_equilibrium env0 None true fs0).2 =
  result_bundle (fetch_adk_equilibrium env0 None false fs_corrupt).2.
Proof.
  apply (X6_bundle_independent_of_cache env0 adk_equilibrium None true false fs0 fs_corrupt
           (fetch_adk_equilibrium env0 None true fs0).1
           (fetch_adk_equilibrium env0 None false fs_corrupt).1).
  - vm_compute. reflexivity.
  - vm_compute. reflexivity.
Defined.

Lemma resolve_file_ok_missing e dl dim ft m s s' :
  resolve_file e dl dim (ft, m) s = (s', inr ()) ->
  path_exists s (join dl (filename m)) = false ->
  files s' !! join dl (filename m) = Some (checksum m).
Proof.
  unfold resolve_file. unfold_monad. intros H Hp. rewrite Hp in H.
  destruct dim; simpl in H; [|discriminate].
  destruct (_fetch_remote e m dl s) as [s2 [e2|q]] eqn:E; simpl in H; [discriminate|].
  injection H as <-. apply fetch_remote_spec in E as (_ & _ & _ & _ & Hr).
  by destruct (Hr q eq_refl) as [<- ?].
Qed.

(** Every file the loop found missing holds the expected content when the
    loop succeeds. *)
Lemma fetch_files_downloaded e dl dim items :
  archive_wf items -> NoDup (map (fun it => filename it.2) items) ->
  forall recs s s' recs', fetch_files e dl dim items recs s = (s', inr recs') ->
  Forall (fun it => path_exists s (join dl (filename it.2)) = false ->
            files s' !! join dl (filename it.2) = Some (checksum it.2)) items.
Proof.
  induction items as [|[ft m] rest IH]; intros Hwf Hnd recs s s' recs' H; [done|].
  pose proof (archive_wf_cons _ _ Hwf) as Hwf'.
  inversion Hnd as [|? ? Hnm Hnd']; subst. simpl in Hnm.
  rewrite fetch_files_cons in H. unfold_monad.
  destruct (resolve_file e dl dim (ft, m) s) as [s1 r1] eqn:E1.
  destruct r1 as [err|[]]; simpl in H; [discriminate|].
  pose proof (resolve_file_spec _ _ _ _ _ _ _ _ E1) as (Hd1 & Hf1 & _).
  pose proof (fetch_files_spec _ _ _ _ _ _ _ _ H) as (_ & _ & Hkeep & _).
  pose proof (IH Hwf' Hnd' _ _ _ _ H) as IHr.
  constructor.
  - simpl. intros Hp. apply Hkeep; [|exact (resolve_file_ok_missing _ _ _ _ _ _ _ E1 Hp)].
    apply Forall_forall. intros it Hin. apply list_elem_of_In in Hin.
    apply (archive_wf_pair dl ((ft, m) :: rest) (ft, m) it Hwf); [by left|by right].
  - rewrite Forall_forall in IHr |- *. intros it Hin Hp. apply IHr; [done|].
    apply list_elem_of_In in Hin.
    rewrite (path_exists_eq s s1); [done|done|].
    apply Hf1.
    + apply (archive_wf_pair dl ((ft, m) :: rest) it (ft, m) Hwf); [by right|by left].
    + unfold join. intros [= Heq]. apply Hnm. rewrite <- Heq.
      apply list_elem_of_In, in_map_iff. by exists it.
Qed.

(** X7: a failed call does not roll back.  If the call fails at a role,
    after the roles before it were resolved, the files of those roles are
    present afterwards, every one of them this call downloaded still holds
    the expected content, and the failing role has no file.  If the
    description cannot be read, every file of the dataset is present and
    the downloaded ones hold the expected content. *)
Theorem X7_failure_keeps_earlier_files e ds dh dim st st' err :
  In ds datasets ->
  fetch_dataset e ds dh dim st = (st', inl err) ->
  let dl := join (get_data_home e dh) (NAME ds) in
  ensure_dir dl st = (st', inl err) \/
  (exists pre ft m post s1 s2 recs,
     ARCHIVE ds = pre ++ (ft, m) :: post /\
     ensure_dir dl st = (s1, inr ()) /\
     fetch_files e dl dim pre [] s1 = (s2, inr recs) /\
     resolve_file e dl dim (ft, m) s2 = (st', inl err) /\
     Forall (fun it => path_exists st' (join dl (filename it.2)) = true) pre /\
     Forall (fun it => path_exists st (join dl (filename it.2)) = false ->
               files st' !! join dl (filename it.2) = Some (checksum it.2)) pre /\
     path_exists st' (join dl (filename m)) = false) \/
  (exists s1 s2 recs,
     ensure_dir dl st = (s1, inr ()) /\
     fetch_files e dl dim (ARCHIVE ds) [] s1 = (s2, inr recs) /\
     read_descr e (DESCRIPTION ds) s2 = (st', inl err) /\
     Forall (fun it => path_exists st' (join dl (filename it.2)) = true) (ARCHIVE ds) /\
     Forall (fun it => path_exists st (join dl (filename it.2)) = false ->
               files st' !! join dl (filename it.2) = Some (checksum it.2)) (ARCHIVE ds)).
Proof.
  intros Hds H dl. pose proof (datasets_wf _ Hds) as Hwf.
  pose proof (datasets_nodup _ Hds) as Hnd.
  apply fetch_dataset_error_iff in H. fold dl in H.
  destruct H as [H|[(s1 & H1 & H2)|(s1 & s2 & recs & H1 & H2 & H3)]].
  - by left.
  - right; left.
    apply fetch_files_error_iff in H2 as (pre & [ft m] & post & s2 & recs & Heq & Hpre & Hit).
    exists pre, ft, m, post, s1, s2, recs. rewrite Heq in Hwf, Hnd.
    rewrite map_app in Hnd. apply NoDup_app in Hnd as (Hnd1 & Hdis & _).
    pose proof (fetch_files_exist _ _ _ _ (archive_wf_app_l _ _ Hwf) _ _ _ _ Hpre) as Hex.
    pose proof (fetch_files_downloaded _ _ _ _ (archive_wf_app_l _ _ Hwf) Hnd1 _ _ _ _ Hpre)
      as Hdl.
    pose proof (resolve_file_spec _ _ _ _ _ _ _ _ Hit) as (Hd3 & Hf3 & Hs3 & _).
    pose proof (resolve_file_err _ _ _ _ _ _ _ _ Hit) as (Hmiss & Hcase).
    assert (Hneq : forall it, In it pre ->
              join dl (filename it.2) <> temp_path dl m /\
              join dl (filename it.2) <> join dl (filename m)).
    { intros it Hin. split.
      - apply (archive_wf_pair dl _ it (ft, m) Hwf); apply in_or_app; [by left|by right; left].
      - unfold join. intros [= Hf]. apply (Hdis (filename it.2)).
        + apply list_elem_of_In, in_map_iff. by exists it.
        + rewrite Hf. apply list_elem_of_In. by left. }
    split_and!; [done|done|done|done| | |].
    + apply Forall_forall. intros it Hin.
      rewrite Forall_forall in Hex. specialize (Hex it Hin).
      apply list_elem_of_In in Hin. destruct (Hneq it Hin) as [Ht _].
      apply (exists_mono s2); [by rewrite Hd3| |done].
      by apply Hs3.
    + apply Forall_forall. intros it Hin Hp.
      rewrite Forall_forall in Hdl. apply list_elem_of_In in Hin as Hin'.
      destruct (Hneq it Hin') as [Ht Hf].
      rewrite (Hf3 _ Ht Hf). apply (Hdl it Hin).
      unfold join in Hp |- *. by rewrite (ensure_dir_child _ _ _ _ _ H1).
    + destruct Hcase as [(_ & -> & _)|(_ & Hr)]; [done|].
      pose proof (fetch_remote_spec _ _ _ _ _ _ Hr) as (Hd4 & _).
      destruct (fetch_remote_log_err _ _ _ _ _ _ Hr) as [_ Herr].
      destruct (Herr err eq_refl) as [Hf4 _].
      by rewrite (path_exists_eq s2 st' _ Hd4 Hf4).
  - right; right. exists s1, s2, recs.
    pose proof (fetch_files_exist _ _ _ _ Hwf _ _ _ _ H2) as Hex.
    pose proof (fetch_files_downloaded _ _ _ _ Hwf Hnd _ _ _ _ H2) as Hdl.
    pose proof (read_descr_spec _ _ _ _ _ H3) as [Hst _].
    split_and!; [done|done|done| |].
    + rewrite Hst. eapply Forall_impl; [exact Hex|]. intros it Hit.
      by rewrite path_exists_add_event.
    + rewrite Hst. eapply Forall_impl; [exact Hdl|]. intros it Hit Hp. simpl.
      apply Hit. unfold join in Hp |- *. by rewrite (ensure_dir_child _ _ _ _ _ H1).
Qed.

Lemma X7_failure_keeps_earlier_files_witness :
  let err := IntegrityError (local_path env_bad_traj adk_equilibrium None (adk_meta 1))
                            (checksum (adk_meta 1)) "0bad" in
  let st' := (fetch_adk_equilibrium env_bad_traj None true fs0).1 in
  let dl := join (get_data_home env_bad_traj None) (NAME adk_equilibrium) in
  ensure_dir dl fs0 = (st', inl err) \/
  (exists pre ft m post s1 s2 recs,
     ARCHIVE adk_equilibrium = pre ++ (ft, m) :: post /\
     ensure_dir dl fs0 = (s1, inr ()) /\
     fetch_files env_bad_traj dl true pre [] s1 = (s2, inr recs) /\
     resolve_file env_bad_traj dl true (ft, m) s2 = (st', inl err) /\
     Forall (fun it => path_exists st' (join dl (filename it.2)) = true) pre /\
     Forall (fun it => path_exists fs0 (join dl (filename it.2)) = false ->
               files st' !! join dl (filename it.2) = Some (checksum it.2)) pre /\
     path_exists st' (join dl (filename m)) = false) \/
  (exists s1 s2 recs,
     ensure_dir dl fs0 = (s1, inr ()) /\
     fetch_files env_bad_traj dl true (ARCHIVE adk_equilibrium) [] s1 = (s2, inr recs) /\
     read_descr env_bad_traj (DESCRIPTION adk_equilibrium) s2 = (st', inl err) /\
     Forall (fun it => path_exists st' (join dl (filename it.2)) = true) (ARCHIVE adk_equilibrium) /\
     Forall (fun it => path_exists fs0 (join dl (filename it.2)) = false ->
               files st' !! join dl (filename it.2) = Some (checksum it.2))
       (ARCHIVE adk_equilibrium)).
Proof.
  apply (X7_failure_keeps_earlier_files env_bad_traj adk_equilibrium None true fs0).
  - left; reflexivity.
  - vm_compute. reflexivity.
Defined.

End MDAnalysisData.
